(** * gemini_review.py: a shallow embedding and its verified properties

    The script diffs two git branches, sends the diff to a generative-text
    API with a bounded retry loop, and writes the transcript to a
    timestamped directory.  Everything outside the script (the
    configuration file, the environment, git, the API, the clock and the
    file system) is a field of the record [world]; the script itself is a
    computation in a small monad that threads the trace of effects and
    stops at [sys.exit] or at an exception nobody catches. *)

From Stdlib Require Import String Ascii List ZArith NArith Lia Bool SpecFloat.
Import ListNotations.

Set Warnings "-register-all".

(** ** Python strings *)

(** A Python [str] is a sequence of Unicode code points. *)
Definition char := N.
Definition str := list char.

(** A literal of the source, written as a Rocq string of ASCII characters. *)
Definition lit (s : string) : str := map N_of_ascii (list_ascii_of_string s).

Arguments lit s%_string.

(** The character written [\n] in the source. *)
Definition nl : char := 10%N.

Module PyStr.

(** [str.isspace] on one character: the code points Python classes as
    whitespace. *)
Definition isspace (c : char) : bool :=
  ((9 <=? c) && (c <=? 13) || (28 <=? c) && (c <=? 32)
   || (c =? 133) || (c =? 160) || (c =? 5760)
   || (8192 <=? c) && (c <=? 8202)
   || (c =? 8232) || (c =? 8233) || (c =? 8239) || (c =? 8287)
   || (c =? 12288))%N.

Fixpoint lstrip (s : str) : str :=
  match s with
  | c :: s' => if isspace c then lstrip s' else s
  | [] => []
  end.

Definition rstrip (s : str) : str := rev (lstrip (rev s)).

(** [s.strip()] *)
Definition strip (s : str) : str := lstrip (rstrip s).

(** [sep.join(items)] on items that are all [str]. *)
Fixpoint join (sep : str) (items : list str) : str :=
  match items with
  | [] => []
  | [x] => x
  | x :: rest => x ++ sep ++ join sep rest
  end.

(** [a == b] on two [str]. *)
Fixpoint eqb (a b : str) : bool :=
  match a, b with
  | [], [] => true
  | x :: a', y :: b' => (x =? y)%N && eqb a' b'
  | _, _ => false
  end.

(** Truth value of a [str]: the empty string is falsy. *)
Definition truthy (s : str) : bool :=
  match s with [] => false | _ :: _ => true end.

End PyStr.

(** ** Values, paths, messages *)

(** What [json.load] returns: Python values built from a JSON document.  A
    [dict] keeps its items in insertion order. *)
Inductive json : Type :=
| JNull
| JBool (b : bool)
| JInt (z : Z)
| JFloat (f : spec_float)
| JStr (s : str)
| JList (items : list json)
| JDict (items : list (str * json)).

Fixpoint dict_get (d : list (str * json)) (key : str) : option json :=
  match d with
  | [] => None
  | (k, v) :: d' => if PyStr.eqb k key then Some v else dict_get d' key
  end.

(** [d[key] = v]: an existing key keeps its place, a new one goes last. *)
Fixpoint dict_set (d : list (str * json)) (key : str) (v : json)
  : list (str * json) :=
  match d with
  | [] => [(key, v)]
  | (k, v0) :: d' =>
      if PyStr.eqb k key then (k, v) :: d' else (k, v0) :: dict_set d' key v
  end.

(** The items of a list when every one of them is a [str]. *)
Fixpoint all_str (items : list json) : option (list str) :=
  match items with
  | [] => Some []
  | JStr s :: rest =>
      match all_str rest with
      | Some ss => Some (s :: ss)
      | None => None
      end
  | _ :: _ => None
  end.

(** A [pathlib.Path], kept as it is built: [Path(s)] and [p / name]. *)
Inductive path : Type :=
| Path (s : str)
| PathJoin (p : path) (name : str).

Notation "p // name" := (PathJoin p (lit name))
  (at level 40, left associativity).

(** The lines the script prints, one constructor per [print] of the source,
    carrying the values its f-string interpolates. *)
Inductive message : Type :=
| MsgConfigNotFound (config_path : str)     (* line 49, to stderr *)
| MsgApiKeyMissing                          (* line 56, to stderr *)
| MsgRateLimited                            (* line 77 *)
| MsgOverloaded (wait : Z)                  (* line 81 *)
| MsgGitDirNotFound (project_dir : path)    (* line 110, to stderr *)
| MsgProject (project_dir : path)           (* line 116 *)
| MsgBaseBranch (base_branch : json)        (* line 117 *)
| MsgModel (model : json)                   (* line 118 *)
| MsgCurrentBranch (current_branch : str)   (* line 124 *)
| MsgLatestCommit (branch : json) (commit : str)  (* lines 125, 126 *)
| MsgNoDiff                                 (* line 129 *)
| MsgEmptyDiff                              (* line 134 *)
| MsgRequesting                             (* line 137 *)
| MsgReviewFailed                           (* line 141 *)
| MsgSavedDiff (p : path)                   (* line 156 *)
| MsgSavedMeta (p : path)                   (* line 172 *)
| MsgSavedReview (p : path)                 (* line 176 *)
| MsgExcerptHeader                          (* line 178 *)
| MsgExcerpt (text : str).                  (* line 179 *)

(** The exceptions the script can meet.  [APIError code] is
    [genai.errors.APIError]; [code] is [None] when the error object has no
    attribute of that name. *)
Inductive exn : Type :=
| FileNotFoundError
| JSONDecodeError
| AttributeError
| KeyError
| TypeError
| IndexError
| CalledProcessError
| OSError
| APIError (code : option Z)
| OtherException.

(** ** Effects *)

(** What a run does to the outside, in the order it does it. *)
Inductive event : Type :=
| ERun (cmd : list str) (cwd : path)          (* subprocess.run *)
| EGenerate (model : json) (contents : str)   (* client.models.generate_content *)
| ESleep (seconds : Z)                        (* time.sleep *)
| EMkdir (p : path)                           (* Path.mkdir *)
| EWriteText (p : path) (content : str)       (* Path.write_text *)
| EPrint (m : message)                        (* print *)
| EPrintErr (m : message).                    (* print(..., file=sys.stderr) *)

Definition trace := list event.

(** Everything the script reads from outside.  [generate_content n] is what
    the [n]-th request of the run (from 0) does: the response text, or the
    exception raised.  An exception that is not an API error may also come
    from [genai.Client()], before the request is made: [request_sent n]
    tells whether the request was made then.  [py_repr] is the
    interpreter's rendering of a number, a list or a dict inside an
    f-string. *)
Record world : Type := {
  open_json : str -> exn + json;
  getenv : str -> option str;
  path_exists : path -> bool;
  subprocess_run : list str -> path -> exn + str;
  generate_content : nat -> exn + str;
  request_sent : nat -> bool;
  now_strftime : str;
  path_resolve : path -> str;
  mkdir_error : path -> option exn;
  write_error : path -> option exn;
  py_repr : json -> str
}.

(** How a computation ends: with a value, with [sys.exit(code)], with an
    exception nobody caught, or (for the retry loop only) out of fuel. *)
Inductive outcome (A : Type) : Type :=
| Ret (a : A)
| Exit (code : Z)
| Raise (e : exn)
| OutOfFuel.

Arguments Ret {A} a.
Arguments Exit {A} code.
Arguments Raise {A} e.
Arguments OutOfFuel {A}.

Definition M (A : Type) : Type := trace -> outcome A * trace.

Definition ret {A} (a : A) : M A := fun tr => (Ret a, tr).

Definition bind {A B} (m : M A) (k : A -> M B) : M B :=
  fun tr =>
    match m tr with
    | (Ret a, tr') => k a tr'
    | (Exit c, tr') => (Exit c, tr')
    | (Raise e, tr') => (Raise e, tr')
    | (OutOfFuel, tr') => (OutOfFuel, tr')
    end.

Notation "x <- m ;; k" := (bind m (fun x => k))
  (at level 61, m at next level, right associativity).
Notation "m ;; k" := (bind m (fun _ => k))
  (at level 61, right associativity).

Definition raise {A} (e : exn) : M A := fun tr => (Raise e, tr).

Definition sys_exit {A} (code : Z) : M A := fun tr => (Exit code, tr).

Definition emit (e : event) : M unit := fun tr => (Ret tt, tr ++ [e]).

(** A line on the console; writing it is taken to succeed. *)
Definition print (m : message) : M unit := emit (EPrint m).

Definition print_err (m : message) : M unit := emit (EPrintErr m).

(** [try: m  except ... as e: h e]; [h] re-raises what its clause does not
    name.  [sys.exit] is not an [Exception] and passes through. *)
Definition try_except {A} (m : M A) (h : exn -> M A) : M A :=
  fun tr =>
    match m tr with
    | (Raise e, tr') => h e tr'
    | r => r
    end.

(** The requests made so far. *)
Fixpoint attempts (tr : trace) : nat :=
  match tr with
  | [] => 0
  | EGenerate _ _ :: tr' => S (attempts tr')
  | _ :: tr' => attempts tr'
  end.

(** The durations slept so far, in order. *)
Fixpoint sleeps (tr : trace) : list Z :=
  match tr with
  | [] => []
  | ESleep d :: tr' => d :: sleeps tr'
  | _ :: tr' => sleeps tr'
  end.

(** The directories created so far, in order. *)
Fixpoint mkdirs (tr : trace) : list path :=
  match tr with
  | [] => []
  | EMkdir p :: tr' => p :: mkdirs tr'
  | _ :: tr' => mkdirs tr'
  end.

(** The subprocesses started so far. *)
Fixpoint runs (tr : trace) : list (list str) :=
  match tr with
  | [] => []
  | ERun cmd _ :: tr' => cmd :: runs tr'
  | _ :: tr' => runs tr'
  end.

(** The lines written to the error stream so far. *)
Fixpoint stderr (tr : trace) : list message :=
  match tr with
  | [] => []
  | EPrintErr m :: tr' => m :: stderr tr'
  | _ :: tr' => stderr tr'
  end.

(** The texts written so far, with their paths, in order. *)
Fixpoint writes (tr : trace) : list (path * str) :=
  match tr with
  | [] => []
  | EWriteText p c :: tr' => (p, c) :: writes tr'
  | _ :: tr' => writes tr'
  end.

Fixpoint path_eqb (p q : path) : bool :=
  match p, q with
  | Path s, Path t => PyStr.eqb s t
  | PathJoin p' a, PathJoin q' b => path_eqb p' q' && PyStr.eqb a b
  | _, _ => false
  end.

(** The content of the file at [p] after the trace: the last text written
    there ([write_text] truncates). *)
Fixpoint file_content (tr : trace) (p : path) : option str :=
  match tr with
  | [] => None
  | e :: tr' =>
      match file_content tr' p with
      | Some c => Some c
      | None =>
          match e with
          | EWriteText q c => if path_eqb q p then Some c else None
          | _ => None
          end
      end
  end.

(** ** The script *)

Section Script.

Variable w : world.

(** Line 62. *)
Definition retry_time : list Z := [3; 30; 120; 300; 600]%Z.

(** What an f-string puts in place of [{v}]. *)
Definition py_str (v : json) : str :=
  match v with
  | JStr s => s
  | JNull => lit "None"
  | JBool true => lit "True"
  | JBool false => lit "False"
  | _ => py_repr w v
  end.

(** [config.get(key, default)]; only a [dict] has the method. *)
Definition get (config : json) (key : str) (default : json) : M json :=
  match config with
  | JDict d =>
      ret (match dict_get d key with Some v => v | None => default end)
  | _ => raise AttributeError
  end.

(** [config[key]] *)
Definition getitem (config : json) (key : str) : M json :=
  match config with
  | JDict d =>
      match dict_get d key with Some v => ret v | None => raise KeyError end
  | _ => raise TypeError
  end.

(** [config[key] = v] *)
Definition setitem (config : json) (key : str) (v : json) : M json :=
  match config with
  | JDict d => ret (JDict (dict_set d key v))
  | _ => raise TypeError
  end.

(** [sep.join(v)]: [v] is iterated, and every item must be a [str]. *)
Definition str_join (sep : str) (v : json) : M str :=
  match v with
  | JList items =>
      match all_str items with
      | Some ss => ret (PyStr.join sep ss)
      | None => raise TypeError
      end
  | JStr s => ret (PyStr.join sep (map (fun c => [c]) s))
  | JDict d => ret (PyStr.join sep (map fst d))
  | _ => raise TypeError
  end.

(** Lines 11-21.  [check=True] turns a non-zero exit status into
    [CalledProcessError]. *)
Definition run_cmd (cmd : list str) (cwd : path) : M str :=
  fun tr =>
    match subprocess_run w cmd cwd with
    | inr stdout => (Ret (PyStr.strip stdout), tr ++ [ERun cmd cwd])
    | inl e => (Raise e, tr ++ [ERun cmd cwd])
    end.

(** Lines 24-25. *)
Definition get_current_branch (cwd : path) : M str :=
  run_cmd [lit "git"; lit "branch"; lit "--contains"] cwd.

(** Lines 28-29.  An argument that is not a [str] is refused by
    [subprocess] before anything is started. *)
Definition get_latest_commit (branch : json) (cwd : path) : M str :=
  match branch with
  | JStr b => run_cmd [lit "git"; lit "rev-parse"; b] cwd
  | _ => raise TypeError
  end.

(** Lines 32-35. *)
Definition get_diff (from_commit to_commit : str) (cwd : path) : M str :=
  run_cmd [lit "git"; lit "diff"; lit "--minimal";
           from_commit ++ lit ".." ++ to_commit] cwd.

(** Lines 40-41: [open] and [json.load], which raise when the file is
    missing, unreadable or not a JSON document. *)
Definition json_load (config_path : str) : M json :=
  fun tr =>
    match open_json w config_path with
    | inr v => (Ret v, tr)
    | inl e => (Raise e, tr)
    end.

(** Lines 38-50. *)
Definition load_config (config_path : str) : M json :=
  try_except
    (config <- json_load config_path ;;
     p <- get config (lit "prompt") JNull ;;
     match p with
     | JList _ =>
         items <- getitem config (lit "prompt") ;;
         joined <- str_join [nl] items ;;
         setitem config (lit "prompt") (JStr joined)
     | _ => ret config
     end)
    (fun e =>
       match e with
       | FileNotFoundError =>
           print_err (MsgConfigNotFound config_path) ;; sys_exit 1
       | _ => raise e
       end).

(** Lines 90-97.  The response text is taken to be a [str].  An API
    error is raised from a response, so the request was made; any other
    exception is raised either by the request or, before it, by
    [genai.Client()] at line 91. *)
Definition try_call_gemini_api (model : json) (prompt : str) : M str :=
  fun tr =>
    match generate_content w (attempts tr) with
    | inr text => (Ret text, tr ++ [EGenerate model prompt])
    | inl (APIError code) =>
        (Raise (APIError code), tr ++ [EGenerate model prompt])
    | inl e =>
        if request_sent w (attempts tr)
        then (Raise e, tr ++ [EGenerate model prompt])
        else (Raise e, tr)
    end.

(** Lines 64-87: the [while True] loop, entered with counter [i].  [break]
    leaves the loop for [return None]. *)
Fixpoint retry_loop (fuel : nat) (model : json) (prompt : str) (i : nat)
  : M (option str) :=
  match fuel with
  | O => fun tr => (OutOfFuel, tr)
  | S fuel' =>
      try_except
        (text <- try_call_gemini_api model prompt ;; ret (Some text))
        (fun e =>
           match e with
           | APIError code =>
               let i := i + 1 in
               match code with
               | None => ret None
               | Some c =>
                   if length retry_time - 1 <? i then ret None
                   else if (c =? 429)%Z then
                     print MsgRateLimited ;; ret None
                   else if (c =? 503)%Z then
                     match nth_error retry_time i with
                     | Some d =>
                         print (MsgOverloaded d) ;;
                         emit (ESleep d) ;;
                         retry_loop fuel' model prompt i
                     | None => raise IndexError
                     end
                   else retry_loop fuel' model prompt i
               end
           | _ => raise e
           end)
  end.

(** Lines 53-87.  The loop gets one unit of fuel per entry of the schedule;
    [retry_loop_fuel] shows that it never needs more. *)
Definition call_gemini_api (model : json) (prompt : str) : M (option str) :=
  match getenv w (lit "GEMINI_API_KEY") with
  | None => print_err MsgApiKeyMissing ;; sys_exit 1
  | Some _ => retry_loop (length retry_time) model prompt 0
  end.

(** What [main] knows once the commits are resolved (line 126). *)
Record run_info : Type := {
  project_dir : path;
  base_branch : json;
  model : json;
  prompt : json;
  current_branch : str;
  base_commit : str;
  head_commit : str
}.

Definition mkdir (p : path) : M unit :=
  fun tr =>
    match mkdir_error w p with
    | Some e => (Raise e, tr)
    | None => (Ret tt, tr ++ [EMkdir p])
    end.

Definition write_text (p : path) (content : str) : M unit :=
  fun tr =>
    match write_error w p with
    | Some e => (Raise e, tr)
    | None => (Ret tt, tr ++ [EWriteText p content])
    end.

(** Line 147. *)
Definition output_dir : path := Path (lit "./review/" ++ now_strftime w).

(** Lines 159-170. *)
Definition meta_info (c : run_info) : str :=
  lit "date: " ++ now_strftime w ++ [nl]
  ++ lit "project path: " ++ path_resolve w (project_dir c) ++ [nl]
  ++ lit "base branch: " ++ py_str (base_branch c) ++ [nl]
  ++ lit "base commit: " ++ base_commit c ++ [nl]
  ++ lit "review target branch: " ++ current_branch c ++ [nl]
  ++ lit "review target commit: " ++ head_commit c ++ [nl]
  ++ lit "model: " ++ py_str (model c) ++ [nl]
  ++ lit "----" ++ [nl]
  ++ lit "prompt:" ++ [nl]
  ++ py_str (prompt c) ++ [nl].

(** Lines 101-126 of [main]: the configuration and the commits. *)
Definition main_resolve : M run_info :=
  config <- load_config (lit "review_config.json") ;;
  project_path <- get config (lit "project_path") (JStr (lit ".")) ;;
  base_branch <- get config (lit "base_branch") JNull ;;
  model <- get config (lit "model") JNull ;;
  prompt <- get config (lit "prompt") JNull ;;
  project_dir <- match project_path with
                 | JStr s => ret (Path s)
                 | _ => raise TypeError
                 end ;;
  if negb (path_exists w (project_dir // ".git")) then
    print_err (MsgGitDirNotFound project_dir) ;; sys_exit 1
  else
    print (MsgProject project_dir) ;;
    print (MsgBaseBranch base_branch) ;;
    print (MsgModel model) ;;
    branches <- get_current_branch project_dir ;;
    let current_branch := skipn 2 branches in
    base_commit <- get_latest_commit base_branch project_dir ;;
    head_commit <- get_latest_commit (JStr current_branch) project_dir ;;
    print (MsgCurrentBranch current_branch) ;;
    print (MsgLatestCommit base_branch base_commit) ;;
    print (MsgLatestCommit (JStr current_branch) head_commit) ;;
    ret {| project_dir := project_dir; base_branch := base_branch;
           model := model; prompt := prompt;
           current_branch := current_branch;
           base_commit := base_commit; head_commit := head_commit |}.

(** Lines 144-179 of [main]: the three files and the excerpt. *)
Definition main_save (c : run_info) (diff_text review_result : str) : M unit :=
  mkdir output_dir ;;
  let diff_path := output_dir // "diff.txt" in
  let review_path := output_dir // "review.md" in
  let meta_path := output_dir // "meta.txt" in
  write_text diff_path diff_text ;;
  print (MsgSavedDiff diff_path) ;;
  write_text meta_path (meta_info c) ;;
  print (MsgSavedMeta meta_path) ;;
  write_text review_path review_result ;;
  print (MsgSavedReview review_path) ;;
  print MsgExcerptHeader ;;
  print (MsgExcerpt (firstn 2000 review_result)).

(** Lines 128-179 of [main]: the diff, the request and the files. *)
Definition main_review (c : run_info) : M unit :=
  if PyStr.eqb (base_commit c) (head_commit c) then
    print MsgNoDiff
  else
    diff_text <- get_diff (base_commit c) (head_commit c) (project_dir c) ;;
    if negb (PyStr.truthy (PyStr.strip diff_text)) then
      print MsgEmptyDiff
    else
      print MsgRequesting ;;
      review_result <-
        call_gemini_api (model c)
          (py_str (prompt c) ++ [nl] ++ lit "```" ++ diff_text ++ lit "```") ;;
      match review_result with
      | None => print MsgReviewFailed
      | Some text => main_save c diff_text text
      end.

(** Lines 100-179. *)
Definition main : M unit :=
  c <- main_resolve ;; main_review c.

End Script.

(** ** Vocabulary of the properties *)

(** [emits P m]: running [m] only adds events to the trace, and each one
    satisfies [P]. *)
Definition emits (P : event -> Prop) {A} (m : M A) : Prop :=
  forall tr r tr',
    m tr = (r, tr') -> exists evs, tr' = tr ++ evs /\ Forall P evs.

(** [returns m]: [m] always comes to an end of its own, whatever the trace
    it starts from. *)
Definition returns {A} (m : M A) : Prop :=
  forall tr, fst (m tr) <> OutOfFuel.

(** The events of the configuration and git stage. *)
Definition resolve_event (e : event) : Prop :=
  match e with
  | ERun _ _ | EPrint _ | EPrintErr _ => True
  | _ => False
  end.

(** The events of the request stage. *)
Definition request_event (e : event) : Prop :=
  match e with
  | EGenerate _ _ | ESleep _ | EPrint _ | EPrintErr _ => True
  | _ => False
  end.

(** The text sent to the API (line 139). *)
Definition review_prompt (w : world) (c : run_info) (diff_text : str) : str :=
  py_str w (prompt c) ++ [nl] ++ lit "```" ++ diff_text ++ lit "```".

(** The run resolved its commits to [c], found them different, and got the
    non-blank diff [diff_text]; [tr] is the trace at that point (line 136). *)
Definition reaches_request
  (w : world) (c : run_info) (diff_text : str) (tr : trace) : Prop :=
  exists tr1,
    main_resolve w [] = (Ret c, tr1)
    /\ base_commit c <> head_commit c
    /\ get_diff w (base_commit c) (head_commit c) (project_dir c) tr1
       = (Ret diff_text, tr)
    /\ PyStr.strip diff_text <> [].

(** The events of lines 144-179. *)
Definition save_events
  (w : world) (c : run_info) (diff_text review_result : str) : trace :=
  [ EMkdir (output_dir w);
    EWriteText (output_dir w // "diff.txt") diff_text;
    EPrint (MsgSavedDiff (output_dir w // "diff.txt"));
    EWriteText (output_dir w // "meta.txt") (meta_info w c);
    EPrint (MsgSavedMeta (output_dir w // "meta.txt"));
    EWriteText (output_dir w // "review.md") review_result;
    EPrint (MsgSavedReview (output_dir w // "review.md"));
    EPrint MsgExcerptHeader;
    EPrint (MsgExcerpt (firstn 2000 review_result)) ].

(** [s] does not begin with whitespace. *)
Definition starts_clean (s : str) : Prop :=
  match s with
  | [] => True
  | c :: _ => PyStr.isspace c = false
  end.

(** [s] neither begins nor ends with whitespace. *)
Definition trimmed (s : str) : Prop :=
  starts_clean s /\ starts_clean (rev s).

(** [a] is [b] with some of its entries left out. *)
Fixpoint subseq (a b : list Z) : bool :=
  match a, b with
  | [], _ => true
  | _ :: _, [] => false
  | x :: a', y :: b' => if (x =? y)%Z then subseq a' b' else subseq a b'
  end.

(** The three forms of command line the script gives to [subprocess]
    (lines 25, 29 and 34). *)
Definition git_command (cmd : list str) : bool :=
  match cmd with
  | [git; sub; arg] =>
      PyStr.eqb git (lit "git")
      && (PyStr.eqb sub (lit "branch") && PyStr.eqb arg (lit "--contains")
          || PyStr.eqb sub (lit "rev-parse"))
  | [git; sub; opt; _] =>
      PyStr.eqb git (lit "git") && PyStr.eqb sub (lit "diff")
      && PyStr.eqb opt (lit "--minimal")
  | _ => false
  end.

(** The three diagnostics of the script (lines 49, 56 and 110). *)
Definition fatal_message (m : message) : Prop :=
  match m with
  | MsgConfigNotFound _ | MsgApiKeyMissing | MsgGitDirNotFound _ => True
  | _ => False
  end.

(** [exits_loudly m]: when [m] ends in [sys.exit], the status is 1 and the
    last thing done before it is one of the diagnostics, on the error
    stream. *)
Definition exits_loudly {A} (m : M A) : Prop :=
  forall tr code tr',
    m tr = (Exit code, tr') ->
    code = 1%Z
    /\ exists tr0 msg, tr' = tr0 ++ [EPrintErr msg] /\ fatal_message msg.

(** An event of a call of the requester for [model] and [prompt]. *)
Definition request_of (model : json) (prompt : str) (e : event) : Prop :=
  match e with
  | EGenerate m p => m = model /\ p = prompt
  | ESleep _ | EPrint _ | EPrintErr _ => True
  | _ => False
  end.

(** Anything but the start of a subprocess. *)
Definition not_run (e : event) : Prop :=
  match e with
  | ERun _ _ => False
  | _ => True
  end.

(** An event of the script whose subprocess, if it is one, is a git
    command of the three forms. *)
Definition main_event (e : event) : Prop :=
  match e with
  | ERun cmd _ => git_command cmd = true
  | _ => True
  end.

(** The events of lines 144-179. *)
Definition save_event (e : event) : Prop :=
  match e with
  | EMkdir _ | EWriteText _ _ | EPrint _ => True
  | _ => False
  end.

(** Every subprocess started in [evs] ended with status 0. *)
Definition ok_runs (w : world) (evs : trace) : Prop :=
  forall cmd cwd,
    In (ERun cmd cwd) evs -> exists out, subprocess_run w cmd cwd = inr out.

(** [git_checked w m]: either every subprocess that [m] starts succeeds,
    or the first one that fails is the last thing [m] does, [m] ends with
    its exception, and before it [m] only printed and ran git. *)
Definition git_checked (w : world) {A} (m : M A) : Prop :=
  forall tr r tr',
    m tr = (r, tr') ->
    exists evs,
      tr' = tr ++ evs
      /\ (ok_runs w evs
          \/ exists evs0 cmd cwd e,
               evs = evs0 ++ [ERun cmd cwd]
               /\ ok_runs w evs0
               /\ Forall resolve_event evs0
               /\ subprocess_run w cmd cwd = inl e
               /\ r = Raise e).

(** ** A concrete run

    A configuration with a two-line prompt, a repository whose branch
    [feature] is one commit ahead of [main], and an API whose behaviour is
    left open. *)

Definition demo_config (base : string) : json :=
  JDict [ (lit "project_path", JStr (lit "."));
          (lit "base_branch", JStr (lit base));
          (lit "model", JStr (lit "gemini-2.0-flash"));
          (lit "prompt", JList [JStr (lit "line1"); JStr (lit "line2")]) ].

Definition demo_git (diff_out : str) (cmd : list str) (cwd : path)
  : exn + str :=
  match cmd with
  | [_; sub; arg] =>
      if PyStr.eqb sub (lit "branch") then inr (lit "* feature" ++ [nl])
      else if PyStr.eqb arg (lit "main") then inr (lit "1111111" ++ [nl])
      else if PyStr.eqb arg (lit "feature") then inr (lit "2222222" ++ [nl])
      else inl CalledProcessError
  | [_; _; _; _] => inr diff_out
  | _ => inl CalledProcessError
  end.

Definition demo_diff : str := lit "+print(1)" ++ [nl].

Definition demo_world
  (config_file : exn + json) (diff_out : str) (api : nat -> exn + str)
  : world :=
  {| open_json := fun _ => config_file;
     getenv := fun _ => Some (lit "secret");
     path_exists := fun _ => true;
     subprocess_run := demo_git diff_out;
     generate_content := api;
     request_sent := fun _ => true;
     now_strftime := lit "20240101_120000";
     path_resolve := fun _ => lit "/home/user/project";
     mkdir_error := fun _ => None;
     write_error := fun _ => None;
     py_repr := fun _ => lit "?" |}.

(** What the run knows at line 126 in that repository. *)
Definition demo_info : run_info :=
  {| project_dir := Path (lit ".");
     base_branch := JStr (lit "main");
     model := JStr (lit "gemini-2.0-flash");
     prompt := JStr (lit "line1" ++ [nl] ++ lit "line2");
     current_branch := lit "feature";
     base_commit := lit "1111111";
     head_commit := lit "2222222" |}.

(** The trace of that run at line 136. *)
Definition demo_trace : trace :=
  [ EPrint (MsgProject (Path (lit ".")));
    EPrint (MsgBaseBranch (JStr (lit "main")));
    EPrint (MsgModel (JStr (lit "gemini-2.0-flash")));
    ERun [lit "git"; lit "branch"; lit "--contains"] (Path (lit "."));
    ERun [lit "git"; lit "rev-parse"; lit "main"] (Path (lit "."));
    ERun [lit "git"; lit "rev-parse"; lit "feature"] (Path (lit "."));
    EPrint (MsgCurrentBranch (lit "feature"));
    EPrint (MsgLatestCommit (JStr (lit "main")) (lit "1111111"));
    EPrint (MsgLatestCommit (JStr (lit "feature")) (lit "2222222"));
    ERun [lit "git"; lit "diff"; lit "--minimal"; lit "1111111..2222222"]
         (Path (lit ".")) ].

(** An API that raises an error of status [code] for the first [n]
    requests and answers [text] from then on. *)
Definition failing_api (code : Z) (n : nat) (text : str) (k : nat)
  : exn + str :=
  if k <? n then inl (APIError (Some code)) else inr text.

(** The trace of the concrete run at line 126 when the base branch is
    [base]. *)
Definition demo_resolved (base commit : string) : trace :=
  [ EPrint (MsgProject (Path (lit ".")));
    EPrint (MsgBaseBranch (JStr (lit base)));
    EPrint (MsgModel (JStr (lit "gemini-2.0-flash")));
    ERun [lit "git"; lit "branch"; lit "--contains"] (Path (lit "."));
    ERun [lit "git"; lit "rev-parse"; lit base] (Path (lit "."));
    ERun [lit "git"; lit "rev-parse"; lit "feature"] (Path (lit "."));
    EPrint (MsgCurrentBranch (lit "feature"));
    EPrint (MsgLatestCommit (JStr (lit base)) (lit commit));
    EPrint (MsgLatestCommit (JStr (lit "feature")) (lit "2222222")) ].

(** The same world with another environment. *)
Definition with_getenv (w : world) (env : str -> option str) : world :=
  {| open_json := open_json w;
     getenv := env;
     path_exists := path_exists w;
     subprocess_run := subprocess_run w;
     generate_content := generate_content w;
     request_sent := request_sent w;
     now_strftime := now_strftime w;
     path_resolve := path_resolve w;
     mkdir_error := mkdir_error w;
     write_error := write_error w;
     py_repr := py_repr w |}.

(** The same world with other directories. *)
Definition with_path_exists (w : world) (ex : path -> bool) : world :=
  {| open_json := open_json w;
     getenv := getenv w;
     path_exists := ex;
     subprocess_run := subprocess_run w;
     generate_content := generate_content w;
     request_sent := request_sent w;
     now_strftime := now_strftime w;
     path_resolve := path_resolve w;
     mkdir_error := mkdir_error w;
     write_error := write_error w;
     py_repr := py_repr w |}.

(** The same world with another git. *)
Definition with_subprocess_run
  (w : world) (run : list str -> path -> exn + str) : world :=
  {| open_json := open_json w;
     getenv := getenv w;
     path_exists := path_exists w;
     subprocess_run := run;
     generate_content := generate_content w;
     request_sent := request_sent w;
     now_strftime := now_strftime w;
     path_resolve := path_resolve w;
     mkdir_error := mkdir_error w;
     write_error := write_error w;
     py_repr := py_repr w |}.


(** The same world with a file system that refuses some writes. *)
Definition with_write_error (w : world) (err : path -> option exn) : world :=
  {| open_json := open_json w;
     getenv := getenv w;
     path_exists := path_exists w;
     subprocess_run := subprocess_run w;
     generate_content := generate_content w;
     request_sent := request_sent w;
     now_strftime := now_strftime w;
     path_resolve := path_resolve w;
     mkdir_error := mkdir_error w;
     write_error := err;
     py_repr := py_repr w |}.

Arguments lit : simpl never.

(** * Facts *)

(** ** Strings *)

Module PyStrFacts.
Import PyStr.

Lemma eqb_spec (a b : str) : reflect (a = b) (eqb a b).
Proof.
  revert b; induction a as [|x a IH]; intros [|y b]; simpl;
    try (constructor; congruence).
  destruct (N.eqb_spec x y) as [->|Hxy]; simpl.
  - destruct (IH b) as [->|Hab]; constructor; congruence.
  - constructor; congruence.
Qed.

Lemma eqb_refl (a : str) : eqb a a = true.
Proof. destruct (eqb_spec a a); congruence. Qed.

Lemma lstrip_all_space (s : str) :
  Forall (fun c => isspace c = true) s -> lstrip s = [].
Proof.
  induction 1 as [|c s Hc _ IH]; simpl; [reflexivity|].
  now rewrite Hc.
Qed.

Lemma lstrip_nil_inv (s : str) :
  lstrip s = [] -> Forall (fun c => isspace c = true) s.
Proof.
  induction s as [|c s IH]; simpl; [constructor|].
  destruct (isspace c) eqn:Hc; [|discriminate].
  intros H; constructor; auto.
Qed.

Lemma lstrip_space_inv (s : str) :
  Forall (fun c => isspace c = true) (lstrip s) ->
  Forall (fun c => isspace c = true) s.
Proof.
  induction s as [|c s IH]; simpl; [constructor|].
  destruct (isspace c) eqn:Hc.
  - intros H; constructor; auto.
  - intros H. inversion H; congruence.
Qed.

Lemma strip_all_space (s : str) :
  Forall (fun c => isspace c = true) s -> strip s = [].
Proof.
  intros H. unfold strip, rstrip.
  rewrite (lstrip_all_space (rev s)); [reflexivity|].
  apply Forall_rev, H.
Qed.

(** A string strips to nothing exactly when it is made of whitespace. *)
Lemma strip_nil_iff (s : str) :
  strip s = [] <-> Forall (fun c => isspace c = true) s.
Proof.
  split; [|apply strip_all_space].
  unfold strip, rstrip. intros H.
  apply lstrip_nil_inv in H.
  apply Forall_rev in H. rewrite rev_involutive in H.
  apply lstrip_space_inv in H.
  apply Forall_rev in H. now rewrite rev_involutive in H.
Qed.

End PyStrFacts.

(** ** Traces *)

Section TraceFacts.

Variables tr tr' : trace.

Lemma attempts_app : attempts (tr ++ tr') = attempts tr + attempts tr'.
Proof.
  induction tr as [|e t IH]; simpl; [reflexivity|].
  destruct e; simpl; rewrite IH; reflexivity.
Qed.

Lemma sleeps_app : sleeps (tr ++ tr') = sleeps tr ++ sleeps tr'.
Proof.
  induction tr as [|e t IH]; simpl; [reflexivity|].
  destruct e; simpl; rewrite IH; reflexivity.
Qed.

Lemma mkdirs_app : mkdirs (tr ++ tr') = mkdirs tr ++ mkdirs tr'.
Proof.
  induction tr as [|e t IH]; simpl; [reflexivity|].
  destruct e; simpl; rewrite IH; reflexivity.
Qed.

Lemma writes_app : writes (tr ++ tr') = writes tr ++ writes tr'.
Proof.
  induction tr as [|e t IH]; simpl; [reflexivity|].
  destruct e; simpl; rewrite IH; reflexivity.
Qed.

Lemma file_content_app (p : path) :
  file_content (tr ++ tr') p =
  match file_content tr' p with
  | Some c => Some c
  | None => file_content tr p
  end.
Proof.
  induction tr as [|e t IH]; simpl.
  - now destruct (file_content tr' p).
  - rewrite IH. now destruct (file_content tr' p).
Qed.

End TraceFacts.

(** ** The retry loop, one iteration at a time *)

Section RetryLoop.

Variable w : world.
Variables (model : json) (prompt : str).

Let request : event := EGenerate model prompt.

Lemma retry_loop_success fuel i tr text :
  generate_content w (attempts tr) = inr text ->
  retry_loop w (S fuel) model prompt i tr = (Ret (Some text), tr ++ [request]).
Proof.
  intros H. simpl. unfold try_except, bind, try_call_gemini_api.
  now rewrite H.
Qed.

Lemma retry_loop_uncaught fuel i tr e :
  generate_content w (attempts tr) = inl e ->
  (forall code, e <> APIError code) ->
  retry_loop w (S fuel) model prompt i tr =
  (Raise e, if request_sent w (attempts tr) then tr ++ [request] else tr).
Proof.
  intros H Hne. simpl. unfold try_except, bind, try_call_gemini_api.
  rewrite H.
  destruct e; try (destruct (request_sent w (attempts tr)); reflexivity).
  now elim (Hne code).
Qed.

Lemma retry_loop_no_code fuel i tr :
  generate_content w (attempts tr) = inl (APIError None) ->
  retry_loop w (S fuel) model prompt i tr = (Ret None, tr ++ [request]).
Proof.
  intros H. simpl. unfold try_except, bind, try_call_gemini_api.
  now rewrite H.
Qed.

Lemma retry_loop_exhausted fuel i tr c :
  generate_content w (attempts tr) = inl (APIError (Some c)) ->
  4 <= i ->
  retry_loop w (S fuel) model prompt i tr = (Ret None, tr ++ [request]).
Proof.
  intros H Hi. simpl. unfold try_except, bind, try_call_gemini_api.
  rewrite H. simpl.
  destruct (Nat.ltb_spec 4 (i + 1)); [reflexivity | lia].
Qed.

Lemma retry_loop_rate_limited fuel i tr :
  generate_content w (attempts tr) = inl (APIError (Some 429%Z)) ->
  i < 4 ->
  retry_loop w (S fuel) model prompt i tr =
  (Ret None, tr ++ [request] ++ [EPrint MsgRateLimited]).
Proof.
  intros H Hi. simpl. unfold try_except, bind, try_call_gemini_api.
  rewrite H. simpl.
  destruct (Nat.ltb_spec 4 (i + 1)); [lia|].
  unfold print, emit, ret. now rewrite <- app_assoc.
Qed.

Lemma retry_loop_overloaded fuel i tr d :
  generate_content w (attempts tr) = inl (APIError (Some 503%Z)) ->
  i < 4 ->
  nth_error retry_time (i + 1) = Some d ->
  retry_loop w (S fuel) model prompt i tr =
  retry_loop w fuel model prompt (i + 1)
    (tr ++ [request] ++ [EPrint (MsgOverloaded d); ESleep d]).
Proof.
  intros H Hi Hd. simpl. unfold try_except, bind, try_call_gemini_api.
  rewrite H. simpl.
  destruct (Nat.ltb_spec 4 (i + 1)); [lia|].
  rewrite Hd. unfold print, emit.
  now rewrite <- !app_assoc.
Qed.

Lemma retry_loop_other_code fuel i tr c :
  generate_content w (attempts tr) = inl (APIError (Some c)) ->
  i < 4 ->
  c <> 429%Z -> c <> 503%Z ->
  retry_loop w (S fuel) model prompt i tr =
  retry_loop w fuel model prompt (i + 1) (tr ++ [request]).
Proof.
  intros H Hi H429 H503. simpl. unfold try_except, bind, try_call_gemini_api.
  rewrite H. simpl.
  destruct (Nat.ltb_spec 4 (i + 1)); [lia|].
  destruct (Z.eqb_spec c 429); [contradiction|].
  destruct (Z.eqb_spec c 503); [contradiction|].
  reflexivity.
Qed.

End RetryLoop.

(** ** Fuel *)

Section Fuel.

Variable w : world.
Variables (model : json) (prompt : str).

Lemma retry_time_entry i :
  i < 4 -> exists d, nth_error retry_time (i + 1) = Some d.
Proof.
  intros Hi.
  destruct i as [|[|[|[|i]]]]; simpl; try lia; eexists; reflexivity.
Qed.

(** One unit of fuel per entry of the schedule is enough: with that much
    or more, the loop gives the same result whatever the fuel. *)
Lemma retry_loop_fuel fuel :
  forall fuel' i tr,
    1 <= fuel -> 5 - i <= fuel -> 1 <= fuel' -> 5 - i <= fuel' ->
    retry_loop w fuel model prompt i tr = retry_loop w fuel' model prompt i tr.
Proof.
  induction fuel as [|f IH]; intros [|f'] i tr H1 H2 H3 H4; try lia.
  destruct (generate_content w (attempts tr)) as [e|text] eqn:Hg.
  2: now rewrite !(retry_loop_success w model prompt _ _ _ _ Hg).
  destruct e as [| | | | | | | |[c|]|];
    try (rewrite !(retry_loop_uncaught w model prompt _ _ _ _ Hg); congruence).
  2: now rewrite !(retry_loop_no_code w model prompt _ _ _ Hg).
  destruct (Nat.le_gt_cases 4 i) as [Hi|Hi].
  { now rewrite !(retry_loop_exhausted w model prompt _ _ _ _ Hg Hi). }
  destruct (Z.eq_dec c 429) as [->|H429].
  { now rewrite !(retry_loop_rate_limited w model prompt _ _ _ Hg Hi). }
  destruct (Z.eq_dec c 503) as [->|H503].
  - destruct (retry_time_entry _ Hi) as [d Hd].
    rewrite !(retry_loop_overloaded w model prompt _ _ _ _ Hg Hi Hd).
    apply IH; lia.
  - rewrite !(retry_loop_other_code w model prompt _ _ _ _ Hg Hi H429 H503).
    apply IH; lia.
Qed.

(** With that much fuel the loop always comes to an end of its own. *)
Lemma retry_loop_terminates fuel :
  forall i tr,
    1 <= fuel -> 5 - i <= fuel ->
    fst (retry_loop w fuel model prompt i tr) <> OutOfFuel.
Proof.
  induction fuel as [|f IH]; intros i tr H1 H2; try lia.
  destruct (generate_content w (attempts tr)) as [e|text] eqn:Hg.
  2: now rewrite (retry_loop_success w model prompt _ _ _ _ Hg).
  destruct e as [| | | | | | | |[c|]|];
    try (rewrite (retry_loop_uncaught w model prompt _ _ _ _ Hg); simpl; congruence).
  2: now rewrite (retry_loop_no_code w model prompt _ _ _ Hg).
  destruct (Nat.le_gt_cases 4 i) as [Hi|Hi].
  { now rewrite (retry_loop_exhausted w model prompt _ _ _ _ Hg Hi). }
  destruct (Z.eq_dec c 429) as [->|H429].
  { now rewrite (retry_loop_rate_limited w model prompt _ _ _ Hg Hi). }
  destruct (Z.eq_dec c 503) as [->|H503].
  - destruct (retry_time_entry _ Hi) as [d Hd].
    rewrite (retry_loop_overloaded w model prompt _ _ _ _ Hg Hi Hd).
    apply IH; lia.
  - rewrite (retry_loop_other_code w model prompt _ _ _ _ Hg Hi H429 H503).
    apply IH; lia.
Qed.

(** [call_gemini_api] never runs out of fuel. *)
Lemma call_gemini_api_terminates tr :
  fst (call_gemini_api w model prompt tr) <> OutOfFuel.
Proof.
  unfold call_gemini_api.
  destruct (getenv w (lit "GEMINI_API_KEY")).
  - apply retry_loop_terminates; simpl; lia.
  - simpl. discriminate.
Qed.

End Fuel.

(** ** What each part of the script can do to the outside *)

Section Emits.

Variable P : event -> Prop.

Lemma emits_ret A (a : A) : emits P (ret a).
Proof.
  intros tr r tr' H. injection H as <- <-.
  exists []. now rewrite app_nil_r.
Qed.

Lemma emits_raise A (e : exn) : emits P (@raise A e).
Proof.
  intros tr r tr' H. injection H as <- <-.
  exists []. now rewrite app_nil_r.
Qed.

Lemma emits_sys_exit A (code : Z) : emits P (@sys_exit A code).
Proof.
  intros tr r tr' H. injection H as <- <-.
  exists []. now rewrite app_nil_r.
Qed.

Lemma emits_emit (e : event) : P e -> emits P (emit e).
Proof.
  intros He tr r tr' H. injection H as <- <-.
  exists [e]. split; [reflexivity | now constructor].
Qed.

Lemma emits_bind A B (m : M A) (k : A -> M B) :
  emits P m -> (forall a, emits P (k a)) -> emits P (bind m k).
Proof.
  intros Hm Hk tr r tr' H. unfold bind in H.
  destruct (m tr) as [r1 tr1] eqn:E1.
  destruct (Hm _ _ _ E1) as (evs1 & -> & F1).
  destruct r1 as [a|c|e|].
  - destruct (Hk a _ _ _ H) as (evs2 & -> & F2).
    exists (evs1 ++ evs2). split; [now rewrite app_assoc|].
    now apply Forall_app.
  - injection H as <- <-. now exists evs1.
  - injection H as <- <-. now exists evs1.
  - injection H as <- <-. now exists evs1.
Qed.

Lemma emits_try_except A (m : M A) (h : exn -> M A) :
  emits P m -> (forall e, emits P (h e)) -> emits P (try_except m h).
Proof.
  intros Hm Hh tr r tr' H. unfold try_except in H.
  destruct (m tr) as [r1 tr1] eqn:E1.
  destruct (Hm _ _ _ E1) as (evs1 & -> & F1).
  destruct r1 as [a|c|e|].
  - injection H as <- <-. now exists evs1.
  - injection H as <- <-. now exists evs1.
  - destruct (Hh e _ _ _ H) as (evs2 & -> & F2).
    exists (evs1 ++ evs2). split; [now rewrite app_assoc|].
    now apply Forall_app.
  - injection H as <- <-. now exists evs1.
Qed.

End Emits.

(** Breaks a computation into its parts, down to the single effects. *)
Ltac emits_step :=
  lazymatch goal with
  | |- emits _ (ret _) => apply emits_ret
  | |- emits _ (raise _) => apply emits_raise
  | |- emits _ (sys_exit _) => apply emits_sys_exit
  | |- emits _ (emit _) => apply emits_emit; exact I
  | |- emits _ (print _) => apply emits_emit; exact I
  | |- emits _ (print_err _) => apply emits_emit; exact I
  | |- emits _ (bind _ _) => apply emits_bind; [|intros ?]
  | |- emits _ (try_except _ _) => apply emits_try_except; [|intros ?]
  | |- emits _ (match ?x with _ => _ end) => destruct x
  end.

Section ScriptEmits.

Variable w : world.

Lemma emits_get P config key default : emits P (get config key default).
Proof. unfold get. repeat emits_step. Qed.

Lemma emits_getitem P config key : emits P (getitem config key).
Proof. unfold getitem. repeat emits_step. Qed.

Lemma emits_setitem P config key v : emits P (setitem config key v).
Proof. unfold setitem. repeat emits_step. Qed.

Lemma emits_str_join P sep v : emits P (str_join sep v).
Proof. unfold str_join. repeat emits_step. Qed.

Lemma emits_json_load P config_path : emits P (json_load w config_path).
Proof.
  intros tr r tr' H. unfold json_load in H.
  exists []. rewrite app_nil_r.
  destruct (open_json w config_path); injection H as <- <-; now split.
Qed.

Lemma emits_run_cmd cmd cwd : emits resolve_event (run_cmd w cmd cwd).
Proof.
  intros tr r tr' H. unfold run_cmd in H.
  exists [ERun cmd cwd].
  destruct (subprocess_run w cmd cwd); injection H as <- <-;
    (split; [reflexivity | repeat constructor]).
Qed.

Lemma emits_load_config config_path :
  emits resolve_event (load_config w config_path).
Proof.
  unfold load_config.
  repeat first [ apply emits_json_load | apply emits_get | apply emits_getitem
               | apply emits_setitem | apply emits_str_join | emits_step ].
Qed.

Lemma emits_get_latest_commit branch cwd :
  emits resolve_event (get_latest_commit w branch cwd).
Proof.
  unfold get_latest_commit.
  destruct branch; first [apply emits_run_cmd | apply emits_raise].
Qed.

Lemma emits_main_resolve : emits resolve_event (main_resolve w).
Proof.
  unfold main_resolve, get_current_branch.
  repeat first [ apply emits_load_config | apply emits_get
               | apply emits_run_cmd | apply emits_get_latest_commit
               | emits_step ].
Qed.

Lemma emits_get_diff a b cwd : emits resolve_event (get_diff w a b cwd).
Proof. apply emits_run_cmd. Qed.

Lemma emits_try_call_gemini_api model prompt :
  emits request_event (try_call_gemini_api w model prompt).
Proof.
  intros tr r tr' H. unfold try_call_gemini_api in H.
  assert (Hsent : exists evs, tr ++ [EGenerate model prompt] = tr ++ evs
                              /\ Forall request_event evs)
    by (eexists; split; [reflexivity | repeat constructor]).
  assert (Hnot : exists evs, tr = tr ++ evs /\ Forall request_event evs)
    by (exists []; split; [now rewrite app_nil_r | constructor]).
  destruct (generate_content w (attempts tr)) as [e|text];
    [|injection H as <- <-; exact Hsent].
  destruct e; try destruct (request_sent w (attempts tr));
    injection H as <- <-; assumption.
Qed.

Lemma emits_retry_loop fuel model prompt :
  forall i, emits request_event (retry_loop w fuel model prompt i).
Proof.
  induction fuel as [|f IH]; intros i; simpl.
  - intros tr r tr' H. injection H as <- <-.
    exists []. now rewrite app_nil_r.
  - repeat first [ apply emits_try_call_gemini_api | apply IH | emits_step ].
Qed.

Lemma emits_call_gemini_api model prompt :
  emits request_event (call_gemini_api w model prompt).
Proof.
  unfold call_gemini_api.
  repeat first [ apply emits_retry_loop | emits_step ].
Qed.

End ScriptEmits.

(** What the stages leave untouched. *)

Lemma resolve_events_quiet evs :
  Forall resolve_event evs ->
  attempts evs = 0 /\ sleeps evs = [] /\ mkdirs evs = [] /\ writes evs = [].
Proof.
  induction 1 as [|e evs He _ IH]; simpl; [easy|].
  destruct e; simpl in He; try contradiction; exact IH.
Qed.

Lemma request_events_quiet evs :
  Forall request_event evs ->
  runs evs = [] /\ mkdirs evs = [] /\ writes evs = [].
Proof.
  induction 1 as [|e evs He _ IH]; simpl; [easy|].
  destruct e; simpl in He; try contradiction; exact IH.
Qed.

(** ** The stages of [main] *)

Section Stages.

Variable w : world.

Lemma main_resolve_quiet r tr :
  main_resolve w [] = (r, tr) ->
  attempts tr = 0 /\ sleeps tr = [] /\ mkdirs tr = [] /\ writes tr = [].
Proof.
  intros H. destruct (emits_main_resolve w _ _ _ H) as (evs & -> & F).
  now apply resolve_events_quiet.
Qed.

Lemma get_diff_quiet a b cwd tr r tr' :
  get_diff w a b cwd tr = (r, tr') ->
  attempts tr' = attempts tr /\ sleeps tr' = sleeps tr
  /\ mkdirs tr' = mkdirs tr /\ writes tr' = writes tr.
Proof.
  intros H. destruct (emits_get_diff w _ _ _ _ _ _ H) as (evs & -> & F).
  destruct (resolve_events_quiet _ F) as (Ha & Hs & Hm & Hw).
  rewrite attempts_app, sleeps_app, mkdirs_app, writes_app, Ha, Hs, Hm, Hw.
  now rewrite !app_nil_r, Nat.add_0_r.
Qed.

Lemma reaches_request_quiet c d tr :
  reaches_request w c d tr ->
  attempts tr = 0 /\ sleeps tr = [] /\ mkdirs tr = [] /\ writes tr = [].
Proof.
  intros (tr1 & Hr & _ & Hd & _).
  destruct (main_resolve_quiet _ _ Hr) as (Ha & Hs & Hm & Hw).
  destruct (get_diff_quiet _ _ _ _ _ _ Hd) as (Ha' & Hs' & Hm' & Hw').
  now rewrite Ha', Hs', Hm', Hw'.
Qed.

(** From line 137 on, [main] is the request followed by its two ways out. *)
Lemma main_at_request c d tr :
  reaches_request w c d tr ->
  main w [] =
  bind (call_gemini_api w (model c) (review_prompt w c d))
       (fun review_result =>
          match review_result with
          | None => print MsgReviewFailed
          | Some text => main_save w c d text
          end)
       (tr ++ [EPrint MsgRequesting]).
Proof.
  intros (tr1 & Hr & Hne & Hd & Hs).
  unfold main, bind at 1. rewrite Hr.
  unfold main_review.
  destruct (PyStrFacts.eqb_spec (base_commit c) (head_commit c)) as [E|_];
    [contradiction|].
  unfold bind at 1. rewrite Hd.
  destruct (PyStr.strip d) eqn:Es; [contradiction|].
  reflexivity.
Qed.

Lemma main_save_ok c d text tr :
  mkdir_error w (output_dir w) = None ->
  (forall p, write_error w p = None) ->
  main_save w c d text tr = (Ret tt, tr ++ save_events w c d text).
Proof.
  intros Hm Hw.
  unfold main_save, bind, mkdir, write_text, print, emit.
  rewrite Hm, !Hw. unfold save_events.
  now rewrite <- !app_assoc.
Qed.

Lemma save_events_files c d text :
  file_content (save_events w c d text) (output_dir w // "diff.txt") = Some d
  /\ file_content (save_events w c d text) (output_dir w // "meta.txt")
     = Some (meta_info w c)
  /\ file_content (save_events w c d text) (output_dir w // "review.md")
     = Some text.
Proof.
  unfold save_events. simpl.
  rewrite !PyStrFacts.eqb_refl.
  repeat split.
Qed.

End Stages.

(** ** Runs of the requester *)

Section Requester.

Variable w : world.
Variables (model : json) (prompt : str).
Variable key : str.
Hypothesis has_key : getenv w (lit "GEMINI_API_KEY") = Some key.

Let request : event := EGenerate model prompt.

(** Closes a goal about the outcome of the request numbered by the trace
    of the goal, from the hypothesis [H] about that request. *)
Ltac nth_request tr H :=
  match goal with
  | |- generate_content _ ?n = _ =>
      match type of H with
      | generate_content _ ?k = _ =>
          replace n with k by (rewrite ?attempts_app; simpl; lia); exact H
      end
  end.

(** Three overloads, then a response: the waits are the entries 1, 2 and 3
    of the schedule. *)
Lemma call_gemini_api_three_overloads tr text :
  generate_content w (attempts tr) = inl (APIError (Some 503%Z)) ->
  generate_content w (attempts tr + 1) = inl (APIError (Some 503%Z)) ->
  generate_content w (attempts tr + 2) = inl (APIError (Some 503%Z)) ->
  generate_content w (attempts tr + 3) = inr text ->
  call_gemini_api w model prompt tr =
  (Ret (Some text),
   tr ++ [request; EPrint (MsgOverloaded 30); ESleep 30%Z;
          request; EPrint (MsgOverloaded 120); ESleep 120%Z;
          request; EPrint (MsgOverloaded 300); ESleep 300%Z;
          request]).
Proof.
  intros H0 H1 H2 H3.
  unfold call_gemini_api. rewrite has_key.
  change (List.length retry_time) with 5.
  rewrite (retry_loop_overloaded w model prompt 4 0 tr 30%Z H0);
    [|lia|reflexivity].
  rewrite (retry_loop_overloaded w model prompt 3 1 _ 120%Z);
    [|nth_request tr H1|lia|reflexivity].
  rewrite (retry_loop_overloaded w model prompt 2 2 _ 300%Z);
    [|nth_request tr H2|lia|reflexivity].
  rewrite (retry_loop_success w model prompt 1 3 _ text);
    [|nth_request tr H3].
  now rewrite <- !app_assoc.
Qed.

(** An overload at every request: five requests, four waits, no result. *)
Lemma call_gemini_api_always_overloaded tr :
  (forall n, generate_content w n = inl (APIError (Some 503%Z))) ->
  call_gemini_api w model prompt tr =
  (Ret None,
   tr ++ [request; EPrint (MsgOverloaded 30); ESleep 30%Z;
          request; EPrint (MsgOverloaded 120); ESleep 120%Z;
          request; EPrint (MsgOverloaded 300); ESleep 300%Z;
          request; EPrint (MsgOverloaded 600); ESleep 600%Z;
          request]).
Proof.
  intros H.
  unfold call_gemini_api. rewrite has_key.
  change (List.length retry_time) with 5.
  rewrite (retry_loop_overloaded w model prompt 4 0 _ 30%Z (H _));
    [|lia|reflexivity].
  rewrite (retry_loop_overloaded w model prompt 3 1 _ 120%Z (H _));
    [|lia|reflexivity].
  rewrite (retry_loop_overloaded w model prompt 2 2 _ 300%Z (H _));
    [|lia|reflexivity].
  rewrite (retry_loop_overloaded w model prompt 1 3 _ 600%Z (H _));
    [|lia|reflexivity].
  rewrite (retry_loop_exhausted w model prompt 0 4 _ 503%Z (H _));
    [|lia].
  now rewrite <- !app_assoc.
Qed.

(** A rate limit at the first request: one request, no wait, no result. *)
Lemma call_gemini_api_rate_limited tr :
  generate_content w (attempts tr) = inl (APIError (Some 429%Z)) ->
  call_gemini_api w model prompt tr =
  (Ret None, tr ++ [request; EPrint MsgRateLimited]).
Proof.
  intros H.
  unfold call_gemini_api. rewrite has_key.
  change (List.length retry_time) with 5.
  rewrite (retry_loop_rate_limited w model prompt 4 0 _ H); [|lia].
  reflexivity.
Qed.

(** An error with any other status code: the loop goes round at once, and
    the next request is made without a wait. *)
Lemma call_gemini_api_other_code tr c text :
  generate_content w (attempts tr) = inl (APIError (Some c)) ->
  c <> 429%Z -> c <> 503%Z ->
  generate_content w (attempts tr + 1) = inr text ->
  call_gemini_api w model prompt tr =
  (Ret (Some text), tr ++ [request; request]).
Proof.
  intros H0 H429 H503 H1.
  unfold call_gemini_api. rewrite has_key.
  change (List.length retry_time) with 5.
  rewrite (retry_loop_other_code w model prompt 4 0 _ c H0);
    [|lia|assumption|assumption].
  rewrite (retry_loop_success w model prompt 3 1 _ text);
    [|nth_request tr H1].
  now rewrite <- !app_assoc.
Qed.


End Requester.

(** ** The configuration *)

Lemma dict_get_set (d : list (str * json)) (key : str) (v : json) :
  dict_get (dict_set d key v) key = Some v.
Proof.
  induction d as [|[k v0] d IH]; simpl.
  - now rewrite PyStrFacts.eqb_refl.
  - destruct (PyStr.eqb k key) eqn:E; simpl; now rewrite E.
Qed.

Lemma all_str_map (lines : list str) : all_str (map JStr lines) = Some lines.
Proof.
  induction lines as [|s lines IH]; simpl; [reflexivity|].
  now rewrite IH.
Qed.

Section Config.

Variable w : world.
Variable config_path : str.

Lemma load_config_missing tr :
  open_json w config_path = inl FileNotFoundError ->
  load_config w config_path tr =
  (Exit 1, tr ++ [EPrintErr (MsgConfigNotFound config_path)]).
Proof.
  intros H. unfold load_config, try_except, bind, json_load.
  now rewrite H.
Qed.

Lemma load_config_raises tr e :
  open_json w config_path = inl e ->
  e <> FileNotFoundError ->
  load_config w config_path tr = (Raise e, tr).
Proof.
  intros H Hne. unfold load_config, try_except, bind, json_load.
  rewrite H. destruct e; try reflexivity. contradiction.
Qed.

(** A [list] prompt is replaced by the join of its lines. *)
Lemma load_config_list tr items lines :
  open_json w config_path = inr (JDict items) ->
  dict_get items (lit "prompt") = Some (JList (map JStr lines)) ->
  load_config w config_path tr =
  (Ret (JDict (dict_set items (lit "prompt")
                 (JStr (PyStr.join [nl] lines)))), tr).
Proof.
  intros H Hp. unfold load_config, try_except, bind, json_load.
  rewrite H. simpl. rewrite Hp. simpl.
  now rewrite all_str_map.
Qed.

(** A configuration whose prompt is not a [list] is returned as loaded. *)
Lemma load_config_other tr items :
  open_json w config_path = inr (JDict items) ->
  (forall l, dict_get items (lit "prompt") <> Some (JList l)) ->
  load_config w config_path tr = (Ret (JDict items), tr).
Proof.
  intros H Hp. unfold load_config, try_except, bind, json_load.
  rewrite H. simpl.
  destruct (dict_get items (lit "prompt")) as [[| | | | |l|]|]; try reflexivity.
  now elim (Hp l).
Qed.

(** The only way to the diagnostic and [sys.exit(1)] is a missing file. *)
Lemma load_config_exit tr code tr' :
  load_config w config_path tr = (Exit code, tr') ->
  open_json w config_path = inl FileNotFoundError
  /\ code = 1%Z
  /\ tr' = tr ++ [EPrintErr (MsgConfigNotFound config_path)].
Proof.
  unfold load_config, try_except, bind, json_load.
  destruct (open_json w config_path) as [e|config].
  - destruct e; try discriminate.
    intros H; injection H as <- <-. repeat split.
  - destruct config; try discriminate. simpl.
    destruct (dict_get items (lit "prompt")) as [[| | | | |l|]|];
      try discriminate.
    simpl. destruct (all_str l); discriminate.
Qed.

(** A configuration that is returned is a [dict], and loading it left no
    trace. *)
Lemma load_config_returns tr config tr' :
  load_config w config_path tr = (Ret config, tr') ->
  tr' = tr /\ exists items, config = JDict items.
Proof.
  unfold load_config, try_except, bind, json_load.
  destruct (open_json w config_path) as [e|loaded].
  - destruct e; discriminate.
  - destruct loaded; try discriminate. simpl.
    destruct (dict_get items (lit "prompt")) as [[| | | | |l|]|];
      try (intros H; injection H as <- <-; eauto).
    simpl. destruct (all_str l); [|discriminate].
    intros H; injection H as <- <-; eauto.
Qed.

End Config.

(** What [main] keeps of the configuration: the values under the four
    keys, of which the project path and the base branch must be [str] for
    the run to get as far as line 126. *)
Lemma main_resolve_returns w tr c tr' :
  main_resolve w tr = (Ret c, tr') ->
  exists items,
    load_config w (lit "review_config.json") tr = (Ret (JDict items), tr)
    /\ prompt c = match dict_get items (lit "prompt") with
                  | Some v => v
                  | None => JNull
                  end
    /\ model c = match dict_get items (lit "model") with
                 | Some v => v
                 | None => JNull
                 end
    /\ exists b, base_branch c = JStr b.
Proof.
  unfold main_resolve, bind.
  destruct (load_config w (lit "review_config.json") tr)
    as [[config| | |] tr0] eqn:Hl; try discriminate.
  destruct (load_config_returns w _ _ _ _ Hl) as (-> & items & ->).
  simpl. unfold ret.
  destruct (match dict_get items (lit "project_path") with
            | Some v => v
            | None => JStr (lit ".")
            end); try discriminate.
  destruct (negb (path_exists w (Path s // ".git"))); [discriminate|].
  simpl.
  destruct (get_current_branch w (Path s) _) as [[br| | |] tr1];
    try discriminate.
  destruct (match dict_get items (lit "base_branch") with
            | Some v => v
            | None => JNull
            end) eqn:Eb; simpl; try discriminate.
  destruct (run_cmd w _ (Path s) tr1) as [[bc| | |] tr2]; try discriminate.
  destruct (run_cmd w _ (Path s) tr2) as [[hc| | |] tr3]; try discriminate.
  simpl. intros H. injection H as <- _. simpl.
  exists items. repeat split. eauto.
Qed.

(** ** Termination *)

Section Returns.

Lemma returns_ret A (a : A) : returns (ret a).
Proof. intros tr. discriminate. Qed.

Lemma returns_raise A (e : exn) : returns (@raise A e).
Proof. intros tr. discriminate. Qed.

Lemma returns_sys_exit A (code : Z) : returns (@sys_exit A code).
Proof. intros tr. discriminate. Qed.

Lemma returns_emit (e : event) : returns (emit e).
Proof. intros tr. discriminate. Qed.

Lemma returns_bind A B (m : M A) (k : A -> M B) :
  returns m -> (forall a, returns (k a)) -> returns (bind m k).
Proof.
  intros Hm Hk tr. unfold bind.
  specialize (Hm tr). destruct (m tr) as [[a|c|e|] tr1]; simpl in *;
    try discriminate; [apply Hk | contradiction].
Qed.

Lemma returns_try_except A (m : M A) (h : exn -> M A) :
  returns m -> (forall e, returns (h e)) -> returns (try_except m h).
Proof.
  intros Hm Hh tr. unfold try_except.
  specialize (Hm tr). destruct (m tr) as [[a|c|e|] tr1]; simpl in *;
    try discriminate; [apply Hh | contradiction].
Qed.

End Returns.

(** Breaks a termination goal into its parts, down to the single effects. *)
Ltac returns_step :=
  lazymatch goal with
  | |- returns (ret _) => apply returns_ret
  | |- returns (raise _) => apply returns_raise
  | |- returns (sys_exit _) => apply returns_sys_exit
  | |- returns (emit _) => apply returns_emit
  | |- returns (print _) => apply returns_emit
  | |- returns (print_err _) => apply returns_emit
  | |- returns (bind _ _) => apply returns_bind; [|intros ?]
  | |- returns (try_except _ _) => apply returns_try_except; [|intros ?]
  | |- returns (match ?x with _ => _ end) => destruct x
  end.

Section ScriptReturns.

Variable w : world.

Lemma returns_get config key default : returns (get config key default).
Proof. unfold get. repeat returns_step. Qed.

Lemma returns_run_cmd cmd cwd : returns (run_cmd w cmd cwd).
Proof.
  intros tr. unfold run_cmd.
  destruct (subprocess_run w cmd cwd); discriminate.
Qed.

Lemma returns_load_config config_path : returns (load_config w config_path).
Proof.
  unfold load_config, getitem, setitem, str_join.
  repeat first [ apply returns_get | returns_step ].
  intros tr. unfold json_load.
  destruct (open_json w config_path); discriminate.
Qed.

Lemma returns_main_resolve : returns (main_resolve w).
Proof.
  unfold main_resolve, get_current_branch, get_latest_commit.
  repeat first [ apply returns_load_config | apply returns_get
               | apply returns_run_cmd | returns_step ].
Qed.

Lemma returns_call_gemini_api model prompt :
  returns (call_gemini_api w model prompt).
Proof. intros tr. apply call_gemini_api_terminates. Qed.

Lemma returns_main_save c d text : returns (main_save w c d text).
Proof.
  unfold main_save.
  repeat first [ returns_step
               | intros tr; unfold mkdir;
                 destruct (mkdir_error w _); discriminate
               | intros tr; unfold write_text;
                 destruct (write_error w _); discriminate ].
Qed.

(** The whole script always comes to an end: with a normal return, with
    [sys.exit], or with an exception. *)
Lemma returns_main : returns (main w).
Proof.
  unfold main, main_review, get_diff.
  repeat first [ apply returns_main_resolve | apply returns_run_cmd
               | apply returns_call_gemini_api | apply returns_main_save
               | returns_step ].
Qed.

End ScriptReturns.

(** ** The concrete run *)

Lemma demo_reaches_request api :
  reaches_request (demo_world (inr (demo_config "main")) demo_diff api)
    demo_info (lit "+print(1)") demo_trace.
Proof.
  exists (removelast demo_trace).
  split; [vm_compute; reflexivity|].
  split; [vm_compute; discriminate|].
  split; [vm_compute; reflexivity|].
  vm_compute; discriminate.
Qed.

(** * Properties of the specification *)

(** C1 (as the code has it).  In every run that reaches the request and in
    which the API raises a 503 error on exactly the first three requests
    and answers the fourth, the run sleeps three times, for 30, 120 and 300
    seconds in that order (the entries 1, 2 and 3 of the schedule, not
    3, 30 and 120: the entry 0 is never used), and the fourth response is
    what [review.md] holds. *)
Theorem C1_three_overloads_wait_30_120_300
  (w : world) (c : run_info) (d : str) (tr : trace) (key text : str) :
  reaches_request w c d tr ->
  getenv w (lit "GEMINI_API_KEY") = Some key ->
  generate_content w 0 = inl (APIError (Some 503%Z)) ->
  generate_content w 1 = inl (APIError (Some 503%Z)) ->
  generate_content w 2 = inl (APIError (Some 503%Z)) ->
  generate_content w 3 = inr text ->
  mkdir_error w (output_dir w) = None ->
  (forall p, write_error w p = None) ->
  exists tr',
    main w [] = (Ret tt, tr')
    /\ attempts tr' = 4
    /\ sleeps tr' = [30; 120; 300]%Z
    /\ sleeps tr' <> [3; 30; 120]%Z
    /\ file_content tr' (output_dir w // "review.md") = Some text.
Proof.
  intros Hreach Hkey H0 H1 H2 H3 Hmk Hwr.
  destruct (reaches_request_quiet w c d tr Hreach) as (Ha & Hs & _ & _).
  assert (Ha' : attempts (tr ++ [EPrint MsgRequesting]) = 0)
    by (rewrite attempts_app, Ha; reflexivity).
  rewrite (main_at_request w c d tr Hreach).
  unfold bind at 1.
  rewrite (call_gemini_api_three_overloads w (model c) (review_prompt w c d)
             key Hkey _ text);
    rewrite ?Ha'; try assumption.
  rewrite (main_save_ok w c d text _ Hmk Hwr).
  eexists; split; [reflexivity|].
  destruct (save_events_files w c d text) as (_ & _ & Hrev).
  rewrite !attempts_app, !sleeps_app, file_content_app, Ha, Hs, Hrev.
  repeat split. simpl. discriminate.
Qed.

Lemma C1_three_overloads_witness :
  exists tr',
    main (demo_world (inr (demo_config "main")) demo_diff
            (failing_api 503 3 (lit "LGTM"))) []
    = (Ret tt, tr')
    /\ attempts tr' = 4
    /\ sleeps tr' = [30; 120; 300]%Z
    /\ sleeps tr' <> [3; 30; 120]%Z
    /\ file_content tr'
         (Path (lit "./review/20240101_120000") // "review.md")
       = Some (lit "LGTM").
Proof.
  apply (C1_three_overloads_wait_30_120_300
           (demo_world (inr (demo_config "main")) demo_diff
              (failing_api 503 3 (lit "LGTM")))
           demo_info (lit "+print(1)") demo_trace (lit "secret") (lit "LGTM")
           (demo_reaches_request _));
    reflexivity.
Defined.

(** C2 (as the code has it).  When the API raises an error that carries a
    status code other than 429 and 503, the requester does not stop: it
    makes the next request at once, without a sleep, and returns that
    request's response when there is one. *)
Theorem C2_other_status_code_is_retried
  (w : world) (model : json) (prompt : str) (tr : trace)
  (key : str) (code : Z) (text : str) :
  getenv w (lit "GEMINI_API_KEY") = Some key ->
  generate_content w (attempts tr) = inl (APIError (Some code)) ->
  code <> 429%Z -> code <> 503%Z ->
  generate_content w (attempts tr + 1) = inr text ->
  exists tr',
    call_gemini_api w model prompt tr = (Ret (Some text), tr')
    /\ attempts tr' = attempts tr + 2
    /\ sleeps tr' = sleeps tr.
Proof.
  intros Hkey H0 H429 H503 H1.
  rewrite (call_gemini_api_other_code w model prompt key Hkey tr code text
             H0 H429 H503 H1).
  eexists; split; [reflexivity|].
  rewrite attempts_app, sleeps_app. simpl.
  now rewrite app_nil_r.
Qed.

Lemma C2_other_status_code_witness :
  exists tr',
    call_gemini_api
      (demo_world (inr (demo_config "main")) demo_diff
         (failing_api 500 1 (lit "LGTM")))
      (JStr (lit "gemini-2.0-flash")) (lit "review this") []
    = (Ret (Some (lit "LGTM")), tr')
    /\ attempts tr' = 2
    /\ sleeps tr' = [].
Proof.
  apply (C2_other_status_code_is_retried
           (demo_world (inr (demo_config "main")) demo_diff
              (failing_api 500 1 (lit "LGTM")))
           (JStr (lit "gemini-2.0-flash")) (lit "review this") []
           (lit "secret") 500%Z (lit "LGTM"));
    first [reflexivity | discriminate].
Defined.

(** C3.  In every run in which the API raises a 503 error at every
    request, the requester makes the first request and then retries,
    sleeping before each retry, and returns no result after at most 6
    requests in all.  The code stops one short of that bound: it makes
    exactly 5 requests (the first and 4 retries, after sleeps of 30, 120,
    300 and 600 seconds), and nothing else. *)
Theorem C3_always_overloaded_at_most_6_attempts
  (w : world) (model : json) (prompt : str) (tr : trace) (key : str) :
  getenv w (lit "GEMINI_API_KEY") = Some key ->
  (forall n, generate_content w n = inl (APIError (Some 503%Z))) ->
  exists tr',
    call_gemini_api w model prompt tr = (Ret None, tr')
    /\ tr' = tr ++ [ EGenerate model prompt;
                     EPrint (MsgOverloaded 30); ESleep 30%Z;
                     EGenerate model prompt;
                     EPrint (MsgOverloaded 120); ESleep 120%Z;
                     EGenerate model prompt;
                     EPrint (MsgOverloaded 300); ESleep 300%Z;
                     EGenerate model prompt;
                     EPrint (MsgOverloaded 600); ESleep 600%Z;
                     EGenerate model prompt ]
    /\ attempts tr' = attempts tr + 1 + 4
    /\ attempts tr' <= attempts tr + 6
    /\ sleeps tr' = sleeps tr ++ [30; 120; 300; 600]%Z.
Proof.
  intros Hkey H.
  rewrite (call_gemini_api_always_overloaded w model prompt key Hkey tr H).
  eexists; split; [reflexivity|]. split; [reflexivity|].
  rewrite attempts_app, sleeps_app. simpl.
  repeat split; lia.
Qed.

Lemma C3_always_overloaded_witness :
  exists tr',
    call_gemini_api
      (demo_world (inr (demo_config "main")) demo_diff
         (fun _ => inl (APIError (Some 503%Z))))
      (JStr (lit "gemini-2.0-flash")) (lit "review this") []
    = (Ret None, tr')
    /\ tr' = [] ++ [ EGenerate (JStr (lit "gemini-2.0-flash"))
                       (lit "review this");
                     EPrint (MsgOverloaded 30); ESleep 30%Z;
                     EGenerate (JStr (lit "gemini-2.0-flash"))
                       (lit "review this");
                     EPrint (MsgOverloaded 120); ESleep 120%Z;
                     EGenerate (JStr (lit "gemini-2.0-flash"))
                       (lit "review this");
                     EPrint (MsgOverloaded 300); ESleep 300%Z;
                     EGenerate (JStr (lit "gemini-2.0-flash"))
                       (lit "review this");
                     EPrint (MsgOverloaded 600); ESleep 600%Z;
                     EGenerate (JStr (lit "gemini-2.0-flash"))
                       (lit "review this") ]
    /\ attempts tr' = 0 + 1 + 4
    /\ attempts tr' <= 0 + 6
    /\ sleeps tr' = [] ++ [30; 120; 300; 600]%Z.
Proof.
  apply (C3_always_overloaded_at_most_6_attempts
           (demo_world (inr (demo_config "main")) demo_diff
              (fun _ => inl (APIError (Some 503%Z))))
           (JStr (lit "gemini-2.0-flash")) (lit "review this") []
           (lit "secret"));
    [reflexivity | intros n; reflexivity].
Defined.

(** C4.  In every run that reaches the request and in which the API raises
    a 429 error on the first request, the run makes that one request, does
    not sleep, gets no result from the requester, creates no directory and
    writes no file, and ends normally after reporting the failure. *)
Theorem C4_rate_limit_stops_at_once
  (w : world) (c : run_info) (d : str) (tr : trace) (key : str) :
  reaches_request w c d tr ->
  getenv w (lit "GEMINI_API_KEY") = Some key ->
  generate_content w 0 = inl (APIError (Some 429%Z)) ->
  exists tr1 tr',
    call_gemini_api w (model c) (review_prompt w c d)
      (tr ++ [EPrint MsgRequesting]) = (Ret None, tr1)
    /\ main w [] = (Ret tt, tr')
    /\ tr' = tr1 ++ [EPrint MsgReviewFailed]
    /\ attempts tr' = 1
    /\ sleeps tr' = []
    /\ mkdirs tr' = []
    /\ writes tr' = [].
Proof.
  intros Hreach Hkey H0.
  destruct (reaches_request_quiet w c d tr Hreach) as (Ha & Hs & Hm & Hw).
  assert (Ha' : attempts (tr ++ [EPrint MsgRequesting]) = 0)
    by (rewrite attempts_app, Ha; reflexivity).
  rewrite (main_at_request w c d tr Hreach).
  unfold bind at 1.
  rewrite (call_gemini_api_rate_limited w (model c) (review_prompt w c d)
             key Hkey);
    [|rewrite Ha'; exact H0].
  do 2 eexists. split; [reflexivity|]. split; [reflexivity|].
  split; [reflexivity|].
  rewrite !attempts_app, !sleeps_app, !mkdirs_app, !writes_app, Ha, Hs, Hm, Hw.
  repeat split.
Qed.

Lemma C4_rate_limit_witness :
  exists tr1 tr',
    call_gemini_api
      (demo_world (inr (demo_config "main")) demo_diff
         (failing_api 429 1 (lit "LGTM")))
      (model demo_info)
      (review_prompt
         (demo_world (inr (demo_config "main")) demo_diff
            (failing_api 429 1 (lit "LGTM")))
         demo_info (lit "+print(1)"))
      (demo_trace ++ [EPrint MsgRequesting]) = (Ret None, tr1)
    /\ main (demo_world (inr (demo_config "main")) demo_diff
               (failing_api 429 1 (lit "LGTM"))) []
       = (Ret tt, tr')
    /\ tr' = tr1 ++ [EPrint MsgReviewFailed]
    /\ attempts tr' = 1
    /\ sleeps tr' = []
    /\ mkdirs tr' = []
    /\ writes tr' = [].
Proof.
  apply (C4_rate_limit_stops_at_once
           (demo_world (inr (demo_config "main")) demo_diff
              (failing_api 429 1 (lit "LGTM")))
           demo_info (lit "+print(1)") demo_trace (lit "secret")
           (demo_reaches_request _));
    reflexivity.
Defined.



(** C6.  In every run that resolved its commits, when the two commits are
    equal, or when the diff text obtained for them is empty or made of
    whitespace only, the run makes no request, creates no directory and
    writes no file, and it returns normally right after printing the
    message that says so. *)
Theorem C6_nothing_to_review
  (w : world) (c : run_info) (tr1 : trace) :
  main_resolve w [] = (Ret c, tr1) ->
  (base_commit c = head_commit c
   \/ exists d tr2,
        get_diff w (base_commit c) (head_commit c) (project_dir c) tr1
        = (Ret d, tr2)
        /\ Forall (fun ch => PyStr.isspace ch = true) d) ->
  exists tr0 m,
    main w [] = (Ret tt, tr0 ++ [EPrint m])
    /\ (m = MsgNoDiff \/ m = MsgEmptyDiff)
    /\ attempts (tr0 ++ [EPrint m]) = 0
    /\ mkdirs (tr0 ++ [EPrint m]) = []
    /\ writes (tr0 ++ [EPrint m]) = [].
Proof.
  intros Hr Hcase.
  destruct (main_resolve_quiet w _ _ Hr) as (Ha1 & _ & Hm1 & Hw1).
  unfold main, bind at 1. rewrite Hr. unfold main_review.
  destruct (PyStrFacts.eqb_spec (base_commit c) (head_commit c)) as [E|Hne].
  - exists tr1, MsgNoDiff. split; [reflexivity|]. split; [now left|].
    rewrite attempts_app, mkdirs_app, writes_app, Ha1, Hm1, Hw1.
    repeat split.
  - destruct Hcase as [E|(d & tr2 & Hd & Hblank)]; [contradiction|].
    destruct (get_diff_quiet w _ _ _ _ _ _ Hd) as (Ha2 & _ & Hm2 & Hw2).
    unfold bind at 1. rewrite Hd.
    rewrite (PyStrFacts.strip_all_space d Hblank). cbn [negb PyStr.truthy].
    exists tr2, MsgEmptyDiff. split; [reflexivity|]. split; [now right|].
    rewrite attempts_app, mkdirs_app, writes_app, Ha2, Hm2, Hw2, Ha1, Hm1, Hw1.
    repeat split.
Qed.

Lemma C6_nothing_to_review_witness :
  let w := demo_world (inr (demo_config "main")) (lit "  " ++ [nl])
             (failing_api 503 0 (lit "LGTM")) in
  exists tr0 m,
    main w [] = (Ret tt, tr0 ++ [EPrint m])
    /\ (m = MsgNoDiff \/ m = MsgEmptyDiff)
    /\ attempts (tr0 ++ [EPrint m]) = 0
    /\ mkdirs (tr0 ++ [EPrint m]) = []
    /\ writes (tr0 ++ [EPrint m]) = [].
Proof.
  intros w.
  apply (C6_nothing_to_review w demo_info (demo_resolved "main" "1111111")).
  - vm_compute. reflexivity.
  - right. exists [], demo_trace. split.
    + vm_compute. reflexivity.
    + constructor.
Defined.

(** The same on a branch that is its own base: the commits are equal. *)
Example same_commit_run :
  main (demo_world (inr (demo_config "feature")) demo_diff
          (failing_api 503 0 (lit "LGTM"))) []
  = (Ret tt, demo_resolved "feature" "2222222" ++ [EPrint MsgNoDiff]).
Proof. vm_compute. reflexivity. Qed.

(** C7.  In every run that got the diff text [d] and the response [text],
    with the prompt template [p], and whose directory and files could be
    written: [diff.txt] holds [d], [review.md] holds [text], and
    [meta.txt] holds the date, the project path, the base branch and its
    commit, the reviewed branch and its commit and the model, one per
    line, then the line [----], the line [prompt:] and the template
    [p]. *)
Theorem C7_files_hold_what_the_run_used
  (w : world) (c : run_info) (d : str) (tr : trace)
  (text : str) (tr3 : trace) (p : str) :
  reaches_request w c d tr ->
  call_gemini_api w (model c) (review_prompt w c d)
    (tr ++ [EPrint MsgRequesting]) = (Ret (Some text), tr3) ->
  mkdir_error w (output_dir w) = None ->
  (forall q, write_error w q = None) ->
  prompt c = JStr p ->
  exists tr' b,
    main w [] = (Ret tt, tr')
    /\ base_branch c = JStr b
    /\ file_content tr' (output_dir w // "diff.txt") = Some d
    /\ file_content tr' (output_dir w // "review.md") = Some text
    /\ file_content tr' (output_dir w // "meta.txt") =
       Some (lit "date: " ++ now_strftime w ++ [nl]
             ++ lit "project path: " ++ path_resolve w (project_dir c) ++ [nl]
             ++ lit "base branch: " ++ b ++ [nl]
             ++ lit "base commit: " ++ base_commit c ++ [nl]
             ++ lit "review target branch: " ++ current_branch c ++ [nl]
             ++ lit "review target commit: " ++ head_commit c ++ [nl]
             ++ lit "model: " ++ py_str w (model c) ++ [nl]
             ++ lit "----" ++ [nl]
             ++ lit "prompt:" ++ [nl]
             ++ p ++ [nl]).
Proof.
  intros Hreach Hc Hmk Hwr Hp.
  assert (Hb : exists b, base_branch c = JStr b).
  { destruct Hreach as (tr1 & Hr & _).
    destruct (main_resolve_returns w _ _ _ Hr) as (_ & _ & _ & _ & Hb).
    exact Hb. }
  destruct Hb as [b Hb].
  rewrite (main_at_request w c d tr Hreach).
  unfold bind at 1. rewrite Hc.
  rewrite (main_save_ok w c d text _ Hmk Hwr).
  exists (tr3 ++ save_events w c d text), b.
  split; [reflexivity|]. split; [exact Hb|].
  destruct (save_events_files w c d text) as (Hdiff & Hmeta & Hrev).
  rewrite !file_content_app, Hdiff, Hmeta, Hrev.
  repeat split.
  unfold meta_info. rewrite Hb, Hp. reflexivity.
Qed.

Lemma C7_files_witness :
  let w := demo_world (inr (demo_config "main")) demo_diff
             (failing_api 503 0 (lit "LGTM")) in
  exists tr' b,
    main w [] = (Ret tt, tr')
    /\ base_branch demo_info = JStr b
    /\ file_content tr' (output_dir w // "diff.txt") = Some (lit "+print(1)")
    /\ file_content tr' (output_dir w // "review.md") = Some (lit "LGTM")
    /\ file_content tr' (output_dir w // "meta.txt") =
       Some (lit "date: " ++ lit "20240101_120000" ++ [nl]
             ++ lit "project path: " ++ lit "/home/user/project" ++ [nl]
             ++ lit "base branch: " ++ b ++ [nl]
             ++ lit "base commit: " ++ lit "1111111" ++ [nl]
             ++ lit "review target branch: " ++ lit "feature" ++ [nl]
             ++ lit "review target commit: " ++ lit "2222222" ++ [nl]
             ++ lit "model: " ++ lit "gemini-2.0-flash" ++ [nl]
             ++ lit "----" ++ [nl]
             ++ lit "prompt:" ++ [nl]
             ++ (lit "line1" ++ [nl] ++ lit "line2") ++ [nl]).
Proof.
  intros w.
  apply (C7_files_hold_what_the_run_used w demo_info (lit "+print(1)")
           demo_trace (lit "LGTM")
           (demo_trace ++ [EPrint MsgRequesting;
                           EGenerate (JStr (lit "gemini-2.0-flash"))
                             (review_prompt w demo_info (lit "+print(1)"))])
           (lit "line1" ++ [nl] ++ lit "line2")
           (demo_reaches_request _));
    reflexivity.
Defined.

(** C8.  In every run in which the configuration file does not exist, the
    process exits with status 1 after printing one diagnostic on the error
    stream; it starts no subprocess (so runs no git command), makes no
    request and writes nothing. *)
Theorem C8_missing_config_is_fatal (w : world) :
  open_json w (lit "review_config.json") = inl FileNotFoundError ->
  exists tr,
    main w [] = (Exit 1, tr)
    /\ tr = [EPrintErr (MsgConfigNotFound (lit "review_config.json"))]
    /\ stderr tr = [MsgConfigNotFound (lit "review_config.json")]
    /\ runs tr = []
    /\ attempts tr = 0
    /\ writes tr = [].
Proof.
  intros H.
  unfold main, main_resolve, bind.
  rewrite (load_config_missing w _ [] H).
  eexists. repeat split.
Qed.

Lemma C8_missing_config_witness :
  exists tr,
    main (demo_world (inl FileNotFoundError) demo_diff
            (failing_api 503 0 (lit "LGTM"))) []
    = (Exit 1, tr)
    /\ tr = [EPrintErr (MsgConfigNotFound (lit "review_config.json"))]
    /\ stderr tr = [MsgConfigNotFound (lit "review_config.json")]
    /\ runs tr = []
    /\ attempts tr = 0
    /\ writes tr = [].
Proof.
  apply (C8_missing_config_is_fatal
           (demo_world (inl FileNotFoundError) demo_diff
              (failing_api 503 0 (lit "LGTM")))).
  reflexivity.
Defined.

(** C9.  When the configuration is a dict whose prompt is a list of
    strings, the configuration that is loaded has for prompt those strings
    joined with newlines, and that is the prompt [main] goes on with; the
    list [line1], [line2] gives [line1\nline2].  A prompt that is a single
    string is left as it is. *)
Theorem C9_prompt_list_is_joined
  (w : world) (items : list (str * json)) (tr : trace) :
  open_json w (lit "review_config.json") = inr (JDict items) ->
  (forall lines,
      dict_get items (lit "prompt") = Some (JList (map JStr lines)) ->
      load_config w (lit "review_config.json") tr
      = (Ret (JDict (dict_set items (lit "prompt")
                       (JStr (PyStr.join [nl] lines)))), tr)
      /\ forall c tr', main_resolve w tr = (Ret c, tr') ->
                       prompt c = JStr (PyStr.join [nl] lines))
  /\ (forall s,
         dict_get items (lit "prompt") = Some (JStr s) ->
         load_config w (lit "review_config.json") tr = (Ret (JDict items), tr)
         /\ forall c tr', main_resolve w tr = (Ret c, tr') ->
                          prompt c = JStr s)
  /\ PyStr.join [nl] [lit "line1"; lit "line2"]
     = lit "line1" ++ [nl] ++ lit "line2".
Proof.
  intros Hopen. split; [|split].
  - intros lines Hp.
    pose proof (load_config_list w _ tr items lines Hopen Hp) as Hl.
    split; [exact Hl|].
    intros c tr' Hr.
    destruct (main_resolve_returns w _ _ _ Hr) as (items' & Hl' & Hpc & _).
    rewrite Hl in Hl'. injection Hl' as <-.
    now rewrite Hpc, dict_get_set.
  - intros s Hp.
    assert (Hl : load_config w (lit "review_config.json") tr
                 = (Ret (JDict items), tr)).
    { apply load_config_other; [exact Hopen|].
      intros l. rewrite Hp. discriminate. }
    split; [exact Hl|].
    intros c tr' Hr.
    destruct (main_resolve_returns w _ _ _ Hr) as (items' & Hl' & Hpc & _).
    rewrite Hl in Hl'. injection Hl' as <-.
    now rewrite Hpc, Hp.
  - reflexivity.
Qed.

Lemma C9_prompt_list_witness :
  let w := demo_world (inr (demo_config "main")) demo_diff
             (failing_api 503 0 (lit "LGTM")) in
  load_config w (lit "review_config.json") []
  = (Ret (JDict [ (lit "project_path", JStr (lit "."));
                  (lit "base_branch", JStr (lit "main"));
                  (lit "model", JStr (lit "gemini-2.0-flash"));
                  (lit "prompt", JStr (lit "line1" ++ [nl] ++ lit "line2")) ]),
     [])
  /\ forall c tr', main_resolve w [] = (Ret c, tr') ->
                   prompt c = JStr (lit "line1" ++ [nl] ++ lit "line2").
Proof.
  intros w.
  apply (proj1 (C9_prompt_list_is_joined w
                  [ (lit "project_path", JStr (lit "."));
                    (lit "base_branch", JStr (lit "main"));
                    (lit "model", JStr (lit "gemini-2.0-flash"));
                    (lit "prompt",
                     JList [JStr (lit "line1"); JStr (lit "line2")]) ]
                  [] eq_refl)
               [lit "line1"; lit "line2"]).
  reflexivity.
Defined.

(** C10.  When the configuration file exists but is not a JSON document,
    [json.load] raises and nothing catches the exception: [load_config]
    and [main] end with it, having printed nothing.  The diagnostic and
    [sys.exit(1)] are reached only when the file is missing. *)
Theorem C10_invalid_json_is_not_handled (w : world) (tr : trace) :
  (open_json w (lit "review_config.json") = inl JSONDecodeError ->
   load_config w (lit "review_config.json") tr = (Raise JSONDecodeError, tr)
   /\ main w tr = (Raise JSONDecodeError, tr))
  /\ (forall code tr',
         load_config w (lit "review_config.json") tr = (Exit code, tr') ->
         open_json w (lit "review_config.json") = inl FileNotFoundError).
Proof.
  split.
  - intros H.
    assert (Hl : load_config w (lit "review_config.json") tr
                 = (Raise JSONDecodeError, tr))
      by (apply load_config_raises; [exact H | discriminate]).
    split; [exact Hl|].
    unfold main, main_resolve, bind. now rewrite Hl.
  - intros code tr' H.
    now destruct (load_config_exit w _ _ _ _ H).
Qed.

Lemma C10_invalid_json_witness :
  let w := demo_world (inl JSONDecodeError) demo_diff
             (failing_api 503 0 (lit "LGTM")) in
  load_config w (lit "review_config.json") [] = (Raise JSONDecodeError, [])
  /\ main w [] = (Raise JSONDecodeError, []).
Proof.
  intros w.
  apply (proj1 (C10_invalid_json_is_not_handled w [])).
  reflexivity.
Defined.

(** * Further properties of the code *)

(** ** What [strip] leaves *)

Module StripFacts.
Import PyStr.

Lemma lstrip_starts_clean (s : str) : starts_clean (lstrip s).
Proof.
  induction s as [|c s IH]; simpl; [exact I|].
  destruct (isspace c) eqn:Hc; [exact IH | exact Hc].
Qed.

Lemma lstrip_clean (s : str) : starts_clean s -> lstrip s = s.
Proof.
  destruct s as [|c s]; simpl; [reflexivity|].
  now intros ->.
Qed.

Lemma lstrip_suffix (s : str) : exists pre, s = pre ++ lstrip s.
Proof.
  induction s as [|c s [pre IH]]; simpl.
  - now exists [].
  - destruct (isspace c).
    + exists (c :: pre). simpl. now rewrite <- IH.
    + now exists [].
Qed.

Lemma starts_clean_app (a b : str) : starts_clean (a ++ b) -> starts_clean a.
Proof. destruct a; simpl; auto. Qed.

Lemma strip_trimmed (s : str) : trimmed (strip s).
Proof.
  unfold trimmed, strip, rstrip. split; [apply lstrip_starts_clean|].
  destruct (lstrip_suffix (rev (lstrip (rev s)))) as [pre E].
  pose proof (lstrip_starts_clean (rev s)) as Hc.
  rewrite <- (rev_involutive (lstrip (rev s))) in Hc.
  rewrite E in Hc at 1. rewrite rev_app_distr in Hc.
  exact (starts_clean_app _ _ Hc).
Qed.

Lemma trimmed_strip (s : str) : trimmed s -> strip s = s.
Proof.
  intros [Hs Hr]. unfold strip, rstrip.
  now rewrite (lstrip_clean _ Hr), rev_involutive, (lstrip_clean _ Hs).
Qed.

Lemma strip_idempotent (s : str) : strip (strip s) = strip s.
Proof. apply trimmed_strip, strip_trimmed. Qed.

(** A text that does not end with whitespace, followed by a newline and
    preceded by a marker that is not whitespace, strips to marker and
    text. *)
Lemma strip_marked_line (c : char) (rest : str) :
  isspace c = false ->
  starts_clean (rev rest) ->
  strip (c :: rest ++ [nl]) = c :: rest.
Proof.
  intros Hc Hrest. unfold strip, rstrip.
  assert (E : rev (c :: rest ++ [nl]) = nl :: rev rest ++ [c]).
  { simpl. now rewrite rev_app_distr. }
  rewrite E. simpl.
  assert (Hclean : starts_clean (rev rest ++ [c])).
  { destruct (rev rest); simpl in *; assumption. }
  rewrite (lstrip_clean _ Hclean), rev_app_distr, rev_involutive.
  simpl. now rewrite Hc.
Qed.

End StripFacts.

(** ** The git stage in detail *)

(** What a run that got as far as line 126 read from git. *)
Lemma main_resolve_commits w tr c tr' :
  main_resolve w tr = (Ret c, tr') ->
  exists dir b out_branch out_base out_head,
    project_dir c = Path dir
    /\ base_branch c = JStr b
    /\ path_exists w (Path dir // ".git") = true
    /\ subprocess_run w [lit "git"; lit "branch"; lit "--contains"] (Path dir)
       = inr out_branch
    /\ current_branch c = skipn 2 (PyStr.strip out_branch)
    /\ subprocess_run w [lit "git"; lit "rev-parse"; b] (Path dir)
       = inr out_base
    /\ base_commit c = PyStr.strip out_base
    /\ subprocess_run w [lit "git"; lit "rev-parse"; current_branch c]
         (Path dir) = inr out_head
    /\ head_commit c = PyStr.strip out_head.
Proof.
  unfold main_resolve, bind.
  destruct (load_config w (lit "review_config.json") tr)
    as [[config| | |] tr0] eqn:Hl; try discriminate.
  destruct (load_config_returns w _ _ _ _ Hl) as (-> & items & ->).
  cbn -[skipn]. unfold ret.
  destruct (match dict_get items (lit "project_path") with
            | Some v => v
            | None => JStr (lit ".")
            end) as [| | | |dir| |]; try discriminate.
  destruct (path_exists w (Path dir // ".git")) eqn:Hgit; [|discriminate].
  cbn -[skipn]. unfold get_current_branch, run_cmd.
  destruct (subprocess_run w [lit "git"; lit "branch"; lit "--contains"]
              (Path dir)) as [e|out_branch] eqn:Hbr; [discriminate|].
  remember (skipn 2 (PyStr.strip out_branch)) as cur eqn:Hcur.
  destruct (match dict_get items (lit "base_branch") with
            | Some v => v
            | None => JNull
            end) as [| | | |b| |]; cbn -[skipn]; try discriminate.
  unfold run_cmd.
  destruct (subprocess_run w [lit "git"; lit "rev-parse"; b] (Path dir))
    as [e|out_base] eqn:Hb; [cbn; discriminate|].
  cbn -[skipn]. unfold run_cmd.
  match goal with
  | |- context [match ?x with inl _ => _ | inr _ => _ end] =>
      destruct x as [e|out_head] eqn:Hh; [cbn; discriminate|]
  end.
  cbn. intros H. injection H as <- _. cbn.
  exists dir, b, out_branch, out_base, out_head. repeat split; assumption.
Qed.

(** The diff text of a run that got as far as the request. *)
Lemma reaches_request_diff w c d tr :
  reaches_request w c d tr ->
  exists out,
    subprocess_run w
      [lit "git"; lit "diff"; lit "--minimal";
       base_commit c ++ lit ".." ++ head_commit c] (project_dir c) = inr out
    /\ d = PyStr.strip out.
Proof.
  intros (tr1 & _ & _ & Hd & _).
  unfold get_diff, run_cmd in Hd.
  destruct (subprocess_run w _ (project_dir c)) as [e|out];
    [discriminate|].
  injection Hd as <- _. now exists out.
Qed.

(** X1.  The diff text that a run sends to the API and writes to
    [diff.txt] is what [git diff] printed with the whitespace at both ends
    removed: it neither begins nor ends with whitespace (so the final
    newline of git's output is not in the file), and stripping it again,
    as line 133 does, changes nothing. *)
Theorem X1_diff_text_is_stripped_output
  (w : world) (c : run_info) (d : str) (tr : trace) :
  reaches_request w c d tr ->
  exists out,
    subprocess_run w
      [lit "git"; lit "diff"; lit "--minimal";
       base_commit c ++ lit ".." ++ head_commit c] (project_dir c) = inr out
    /\ d = PyStr.strip out
    /\ trimmed d
    /\ PyStr.strip d = d
    /\ d <> [].
Proof.
  intros Hreach.
  destruct (reaches_request_diff w c d tr Hreach) as (out & Hout & ->).
  exists out. split; [exact Hout|]. split; [reflexivity|].
  split; [apply StripFacts.strip_trimmed|].
  split; [apply StripFacts.strip_idempotent|].
  destruct Hreach as (_ & _ & _ & _ & Hne).
  now rewrite StripFacts.strip_idempotent in Hne.
Qed.

Lemma X1_diff_text_witness :
  exists out,
    subprocess_run
      (demo_world (inr (demo_config "main")) demo_diff
         (failing_api 503 0 (lit "LGTM")))
      [lit "git"; lit "diff"; lit "--minimal";
       base_commit demo_info ++ lit ".." ++ head_commit demo_info]
      (project_dir demo_info) = inr out
    /\ lit "+print(1)" = PyStr.strip out
    /\ trimmed (lit "+print(1)")
    /\ PyStr.strip (lit "+print(1)") = lit "+print(1)"
    /\ lit "+print(1)" <> [].
Proof.
  apply (X1_diff_text_is_stripped_output
           (demo_world (inr (demo_config "main")) demo_diff
              (failing_api 503 0 (lit "LGTM")))
           demo_info (lit "+print(1)") demo_trace
           (demo_reaches_request _)).
Defined.

(** X2.  When [git branch --contains] prints the single line [* name]
    (a star, a space, a non-empty name that does not end with whitespace,
    a newline), the branch the run reviews is [name]: the two characters
    dropped at line 120 are the star and the space. *)
Theorem X2_current_branch_of_single_line
  (w : world) (tr : trace) (c : run_info) (tr' : trace) (name : str) :
  main_resolve w tr = (Ret c, tr') ->
  subprocess_run w [lit "git"; lit "branch"; lit "--contains"] (project_dir c)
  = inr (lit "* " ++ name ++ [nl]) ->
  name <> [] ->
  starts_clean (rev name) ->
  current_branch c = name.
Proof.
  intros Hr Hout Hne Hclean.
  destruct (main_resolve_commits w _ _ _ Hr)
    as (dir & b & out & _ & _ & Hdir & _ & _ & Hbr & Hcur & _).
  rewrite Hdir, Hbr in Hout. injection Hout as ->.
  rewrite Hcur.
  change (PyStr.strip (42%N :: 32%N :: name ++ [nl]))
    with (PyStr.strip (42%N :: (32%N :: name) ++ [nl])).
  rewrite StripFacts.strip_marked_line; [reflexivity..|].
  simpl. destruct (rev name) eqn:E; [|exact Hclean].
  apply (f_equal (@rev _)) in E. rewrite rev_involutive in E.
  contradiction.
Qed.

Lemma X2_current_branch_witness :
  lit "* " ++ lit "feature" ++ [nl] = lit "* feature" ++ [nl]
  /\ current_branch demo_info = lit "feature".
Proof.
  split; [reflexivity|].
  apply (X2_current_branch_of_single_line
           (demo_world (inr (demo_config "main")) demo_diff
              (failing_api 503 0 (lit "LGTM")))
           [] demo_info (demo_resolved "main" "1111111") (lit "feature")).
  - vm_compute. reflexivity.
  - reflexivity.
  - discriminate.
  - reflexivity.
Defined.

(** ** The retry loop under any behaviour of the API *)

Lemma subseq_grow (b : list Z) :
  (forall a y, subseq a b = true -> subseq a (y :: b) = true)
  /\ (forall x a, subseq (x :: a) b = true -> subseq a b = true).
Proof.
  induction b as [|z b [IHcons IHtl]].
  - split.
    + intros [|x a] y H; [reflexivity | discriminate].
    + intros x a H. discriminate.
  - assert (Htl : forall x a, subseq (x :: a) (z :: b) = true ->
                              subseq a (z :: b) = true).
    { intros x a H. simpl in H.
      destruct (x =? z)%Z; [now apply IHcons|].
      apply IHcons. now apply (IHtl x). }
    split; [|exact Htl].
    intros [|x a] y H; [reflexivity|].
    change (subseq (x :: a) (y :: z :: b))
      with (if (x =? y)%Z then subseq a (z :: b) else subseq (x :: a) (z :: b)).
    destruct (x =? y)%Z; [now apply (Htl x) | exact H].
Qed.

Lemma subseq_cons_r (a b : list Z) (y : Z) :
  subseq a b = true -> subseq a (y :: b) = true.
Proof. apply subseq_grow. Qed.

Lemma subseq_cons (a b : list Z) (x : Z) :
  subseq a b = true -> subseq (x :: a) (x :: b) = true.
Proof. intros H. simpl. now rewrite Z.eqb_refl. Qed.

Lemma sum_nonneg (b : list Z) :
  Forall (fun d => 0 <= d)%Z b -> (0 <= fold_right Z.add 0 b)%Z.
Proof. induction 1; simpl; lia. Qed.

Lemma subseq_sum (b : list Z) :
  Forall (fun d => 0 <= d)%Z b ->
  forall a, subseq a b = true ->
            (fold_right Z.add 0 a <= fold_right Z.add 0 b)%Z.
Proof.
  induction 1 as [|y b Hy Hb IH]; intros [|x a] H; simpl in *;
    try discriminate; try lia.
  - pose proof (sum_nonneg b Hb). lia.
  - pose proof (sum_nonneg b Hb).
    destruct (Z.eqb_spec x y) as [->|_].
    + specialize (IH a H). lia.
    + specialize (IH (x :: a) H). simpl in IH. lia.
Qed.

Lemma skipn_nth_error (A : Type) (l : list A) :
  forall n d, nth_error l n = Some d -> skipn n l = d :: skipn (S n) l.
Proof.
  induction l as [|x l IH]; intros [|n] d H; simpl in *; try discriminate.
  - now injection H as ->.
  - now apply IH.
Qed.

Section AnyApi.

Variable w : world.
Variables (model : json) (prompt : str).

(** The most requests the loop can still make when it is entered with
    counter [i]. *)
Let budget (i : nat) : nat := if i <? 4 then 5 - i else 1.

(** Closes the cases in which the loop stops after the request. *)
Ltac stop_here :=
  split; [reflexivity|]; split; [simpl; assumption|];
  match goal with Hnil : forall evs, sleeps evs = [] -> _ |- _ =>
    apply Hnil; reflexivity
  end.

Lemma retry_loop_bounded fuel :
  forall i tr r tr',
    retry_loop w fuel model prompt i tr = (r, tr') ->
    exists evs,
      tr' = tr ++ evs
      /\ attempts evs <= budget i
      /\ subseq (sleeps evs) (skipn (i + 1) retry_time) = true.
Proof.
  induction fuel as [|f IH]; intros i tr r tr' H.
  { injection H as <- <-. exists []. rewrite app_nil_r.
    split; [reflexivity|]. split; [simpl; lia|].
    simpl. destruct (skipn (i + 1) retry_time); reflexivity. }
  assert (Hnil : forall evs, sleeps evs = [] ->
                 subseq (sleeps evs) (skipn (i + 1) retry_time) = true).
  { intros evs ->. destruct (skipn (i + 1) retry_time); reflexivity. }
  assert (Hone : 1 <= budget i)
    by (unfold budget; destruct (Nat.ltb_spec i 4); lia).
  destruct (generate_content w (attempts tr)) as [e|text] eqn:Hg.
  2: { rewrite (retry_loop_success w model prompt _ _ _ _ Hg) in H.
       injection H as <- <-. eexists; stop_here. }
  destruct e as [| | | | | | | |[c|]|];
    try (rewrite (retry_loop_uncaught w model prompt _ _ _ _ Hg) in H;
         [|congruence];
         destruct (request_sent w (attempts tr)); injection H as <- <-;
         [eexists; stop_here|];
         exists []; rewrite app_nil_r;
         split; [reflexivity|]; split; [simpl; lia|];
         apply Hnil; reflexivity).
  2: { rewrite (retry_loop_no_code w model prompt _ _ _ Hg) in H.
       injection H as <- <-. eexists; stop_here. }
  destruct (Nat.le_gt_cases 4 i) as [Hi|Hi].
  { rewrite (retry_loop_exhausted w model prompt _ _ _ _ Hg Hi) in H.
    injection H as <- <-. eexists; stop_here. }
  assert (Hstep : 1 + budget (i + 1) <= budget i).
  { unfold budget. destruct (Nat.ltb_spec i 4); [|lia].
    destruct (Nat.ltb_spec (i + 1) 4); lia. }
  destruct (Z.eq_dec c 429) as [->|H429].
  { rewrite (retry_loop_rate_limited w model prompt _ _ _ Hg Hi) in H.
    injection H as <- <-. eexists; stop_here. }
  destruct (retry_time_entry i Hi) as [d Hd].
  pose proof (skipn_nth_error _ retry_time (i + 1) d Hd) as Hskip.
  replace (S (i + 1)) with (i + 1 + 1) in Hskip by lia.
  destruct (Z.eq_dec c 503) as [->|H503].
  - rewrite (retry_loop_overloaded w model prompt _ _ _ _ Hg Hi Hd) in H.
    destruct (IH _ _ _ _ H) as (evs & -> & Ha & Hs).
    exists (([EGenerate model prompt]
             ++ [EPrint (MsgOverloaded d); ESleep d]) ++ evs).
    split; [now rewrite !app_assoc|]. split.
    + rewrite attempts_app. simpl. lia.
    + rewrite sleeps_app, Hskip. simpl sleeps. simpl app.
      now apply subseq_cons.
  - rewrite (retry_loop_other_code w model prompt _ _ _ _ Hg Hi H429 H503)
      in H.
    destruct (IH _ _ _ _ H) as (evs & -> & Ha & Hs).
    exists ([EGenerate model prompt] ++ evs).
    split; [now rewrite app_assoc|]. split.
    + rewrite attempts_app. simpl. lia.
    + rewrite sleeps_app, Hskip. simpl sleeps. simpl app.
      now apply subseq_cons_r.
Qed.

End AnyApi.

(** X3.  Whatever the API does, one call of the requester makes at most
    five requests, and the durations it sleeps are, in order, entries of
    [30, 120, 300, 600] (the schedule without its first entry), each used
    at most once: it never sleeps for 3 seconds, and never for more than
    1050 seconds in all.  The loop always ends of its own. *)
Theorem X3_requester_is_bounded
  (w : world) (model : json) (prompt : str)
  (tr : trace) (r : outcome (option str)) (tr' : trace) :
  call_gemini_api w model prompt tr = (r, tr') ->
  exists evs,
    tr' = tr ++ evs
    /\ attempts evs <= 5
    /\ subseq (sleeps evs) [30; 120; 300; 600]%Z = true
    /\ (fold_right Z.add 0 (sleeps evs) <= 1050)%Z
    /\ r <> OutOfFuel.
Proof.
  intros H.
  assert (Hr : r <> OutOfFuel).
  { pose proof (call_gemini_api_terminates w model prompt tr) as Ht.
    now rewrite H in Ht. }
  unfold call_gemini_api in H.
  destruct (getenv w (lit "GEMINI_API_KEY")).
  - destruct (retry_loop_bounded w model prompt _ _ _ _ _ H)
      as (evs & -> & Ha & Hs).
    exists evs. repeat split; try assumption.
    apply (subseq_sum [30; 120; 300; 600]%Z); [|exact Hs].
    repeat constructor; lia.
  - injection H as <- <-.
    exists [EPrintErr MsgApiKeyMissing].
    repeat split; simpl; try lia. discriminate.
Qed.

Lemma X3_requester_bound_witness :
  exists evs,
    [ EGenerate JNull []; EPrint (MsgOverloaded 30); ESleep 30%Z;
      EGenerate JNull []; EGenerate JNull [];
      EGenerate JNull []; EPrint (MsgOverloaded 600); ESleep 600%Z;
      EGenerate JNull [] ] = [] ++ evs
    /\ attempts evs <= 5
    /\ subseq (sleeps evs) [30; 120; 300; 600]%Z = true
    /\ (fold_right Z.add 0 (sleeps evs) <= 1050)%Z
    /\ @Ret (option str) None <> OutOfFuel.
Proof.
  apply (X3_requester_is_bounded
           (demo_world (inr (demo_config "main")) demo_diff
              (fun n => match n with
                        | 0 | 3 => inl (APIError (Some 503%Z))
                        | _ => inl (APIError (Some 500%Z))
                        end))
           JNull [] []).
  reflexivity.
Defined.

Section Overloads.

Variable w : world.
Variables (model : json) (prompt : str).

(** [k] overloads and then a response, from counter [i]. *)
Lemma retry_loop_overloads k :
  forall fuel i tr text,
    i + k <= 4 -> k < fuel ->
    (forall n, n < k ->
               generate_content w (attempts tr + n)
               = inl (APIError (Some 503%Z))) ->
    generate_content w (attempts tr + k) = inr text ->
    exists tr',
      retry_loop w fuel model prompt i tr = (Ret (Some text), tr')
      /\ attempts tr' = attempts tr + k + 1
      /\ sleeps tr' = sleeps tr ++ firstn k (skipn (i + 1) retry_time).
Proof.
  induction k as [|k IH]; intros [|fuel] i tr text Hi Hf H503 Hok; try lia.
  - rewrite Nat.add_0_r in Hok.
    rewrite (retry_loop_success w model prompt _ _ _ _ Hok).
    eexists. split; [reflexivity|].
    rewrite attempts_app, sleeps_app. simpl.
    rewrite app_nil_r. split; [lia | reflexivity].
  - assert (Hlt : i < 4) by lia.
    destruct (retry_time_entry i Hlt) as [d Hd].
    pose proof (H503 0 ltac:(lia)) as H0. rewrite Nat.add_0_r in H0.
    rewrite (retry_loop_overloaded w model prompt _ _ _ _ H0 Hlt Hd).
    set (tr2 := tr ++ [EGenerate model prompt]
                   ++ [EPrint (MsgOverloaded d); ESleep d]).
    assert (Ha2 : attempts tr2 = attempts tr + 1)
      by (unfold tr2; rewrite attempts_app; reflexivity).
    assert (Hs2 : sleeps tr2 = sleeps tr ++ [d])
      by (unfold tr2; rewrite sleeps_app; reflexivity).
    destruct (IH fuel (i + 1) tr2 text) as (tr' & Hrun & Ha & Hs); try lia.
    + intros n Hn. rewrite Ha2.
      replace (attempts tr + 1 + n) with (attempts tr + S n) by lia.
      apply H503. lia.
    + rewrite Ha2.
      replace (attempts tr + 1 + k) with (attempts tr + S k) by lia.
      exact Hok.
    + exists tr'. split; [exact Hrun|]. split; [lia|].
      rewrite Hs, Hs2, <- app_assoc.
      rewrite (skipn_nth_error _ retry_time (i + 1) d Hd).
      replace (S (i + 1)) with (i + 1 + 1) by lia. reflexivity.
Qed.

End Overloads.

(** X4.  When the API is overloaded (503) for the first [k] requests of a
    call, with [k] at most 4, and answers the next one, the requester
    returns that answer after [k + 1] requests, and it has slept for the
    first [k] of 30, 120, 300 and 600 seconds, in that order. *)
Theorem X4_overloads_then_answer
  (w : world) (model : json) (prompt : str) (tr : trace)
  (key : str) (k : nat) (text : str) :
  getenv w (lit "GEMINI_API_KEY") = Some key ->
  k <= 4 ->
  (forall n, n < k ->
             generate_content w (attempts tr + n)
             = inl (APIError (Some 503%Z))) ->
  generate_content w (attempts tr + k) = inr text ->
  exists tr',
    call_gemini_api w model prompt tr = (Ret (Some text), tr')
    /\ attempts tr' = attempts tr + k + 1
    /\ sleeps tr' = sleeps tr ++ firstn k [30; 120; 300; 600]%Z.
Proof.
  intros Hkey Hk H503 Hok.
  unfold call_gemini_api. rewrite Hkey.
  apply (retry_loop_overloads w model prompt k 5 0 tr text);
    simpl; try assumption; lia.
Qed.

Lemma X4_overloads_then_answer_witness :
  exists tr',
    call_gemini_api
      (demo_world (inr (demo_config "main")) demo_diff
         (failing_api 503 4 (lit "LGTM")))
      JNull [] [] = (Ret (Some (lit "LGTM")), tr')
    /\ attempts tr' = 0 + 4 + 1
    /\ sleeps tr' = [] ++ firstn 4 [30; 120; 300; 600]%Z.
Proof.
  apply (X4_overloads_then_answer
           (demo_world (inr (demo_config "main")) demo_diff
              (failing_api 503 4 (lit "LGTM")))
           JNull [] [] (lit "secret") 4 (lit "LGTM")).
  - reflexivity.
  - lia.
  - intros [|[|[|[|n]]]] Hn; try reflexivity. lia.
  - reflexivity.
Defined.

(** ** Ways out of the request *)

Lemma runs_app_last (tr : trace) (cmd : list str) (cwd : path) :
  runs (tr ++ [ERun cmd cwd]) = runs tr ++ [cmd].
Proof.
  induction tr as [|e tr IH]; simpl; [reflexivity|].
  destruct e; simpl; now rewrite IH.
Qed.

(** X5.  When the environment has no [GEMINI_API_KEY], a run that got as
    far as the request announces it, prints a diagnostic on the error
    stream and exits with status 1: the key is looked up only then, after
    the git commands, and no request, directory or file is made. *)
Theorem X5_missing_key_is_fatal
  (w : world) (c : run_info) (d : str) (tr : trace) :
  reaches_request w c d tr ->
  getenv w (lit "GEMINI_API_KEY") = None ->
  main w [] = (Exit 1, tr ++ [EPrint MsgRequesting; EPrintErr MsgApiKeyMissing])
  /\ runs tr <> []
  /\ attempts tr = 0
  /\ mkdirs tr = []
  /\ writes tr = [].
Proof.
  intros Hreach Hkey.
  destruct (reaches_request_quiet w c d tr Hreach) as (Ha & _ & Hm & Hw).
  rewrite (main_at_request w c d tr Hreach).
  unfold bind at 1, call_gemini_api. rewrite Hkey.
  unfold bind, print_err, emit, sys_exit. rewrite <- app_assoc.
  repeat split; try assumption.
  destruct Hreach as (tr1 & _ & _ & Hd & _).
  unfold get_diff, run_cmd in Hd.
  destruct (subprocess_run w _ (project_dir c)); [discriminate|].
  injection Hd as _ <-. rewrite runs_app_last.
  destruct (runs tr1); discriminate.
Qed.

Lemma X5_missing_key_witness :
  let w := with_getenv
             (demo_world (inr (demo_config "main")) demo_diff
                (failing_api 503 0 (lit "LGTM")))
             (fun _ => None) in
  main w [] = (Exit 1, demo_trace
                       ++ [EPrint MsgRequesting; EPrintErr MsgApiKeyMissing])
  /\ runs demo_trace <> []
  /\ attempts demo_trace = 0
  /\ mkdirs demo_trace = []
  /\ writes demo_trace = [].
Proof.
  intros w.
  apply (X5_missing_key_is_fatal w demo_info (lit "+print(1)") demo_trace).
  - exists (removelast demo_trace).
    split; [vm_compute; reflexivity|].
    split; [vm_compute; discriminate|].
    split; [vm_compute; reflexivity|].
    vm_compute; discriminate.
  - reflexivity.
Defined.

(** What [main] does with each way the requester can end. *)
Lemma main_after_request w c d tr r tr3 :
  reaches_request w c d tr ->
  call_gemini_api w (model c) (review_prompt w c d)
    (tr ++ [EPrint MsgRequesting]) = (r, tr3) ->
  main w [] =
  match r with
  | Ret (Some text) => main_save w c d text tr3
  | Ret None => (Ret tt, tr3 ++ [EPrint MsgReviewFailed])
  | Exit code => (Exit code, tr3)
  | Raise e => (Raise e, tr3)
  | OutOfFuel => (OutOfFuel, tr3)
  end.
Proof.
  intros Hreach Hc.
  rewrite (main_at_request w c d tr Hreach).
  unfold bind at 1. rewrite Hc.
  destruct r as [[text|]| | |]; reflexivity.
Qed.

(** X6.  When the first request raises an API error that has no [code]
    attribute, the requester stops at once: one request, no sleep, no
    message of its own.  The run reports the failure and returns normally,
    without a directory or a file. *)
Theorem X6_error_without_code_stops
  (w : world) (c : run_info) (d : str) (tr : trace) (key : str) :
  reaches_request w c d tr ->
  getenv w (lit "GEMINI_API_KEY") = Some key ->
  generate_content w 0 = inl (APIError None) ->
  main w [] =
  (Ret tt, tr ++ [EPrint MsgRequesting;
                  EGenerate (model c) (review_prompt w c d);
                  EPrint MsgReviewFailed])
  /\ attempts tr = 0
  /\ sleeps tr = []
  /\ mkdirs tr = []
  /\ writes tr = [].
Proof.
  intros Hreach Hkey H0.
  destruct (reaches_request_quiet w c d tr Hreach) as (Ha & Hs & Hm & Hw).
  split; [|now repeat split].
  rewrite (main_after_request w c d tr (Ret None)
             ((tr ++ [EPrint MsgRequesting])
              ++ [EGenerate (model c) (review_prompt w c d)]) Hreach).
  - now rewrite <- !app_assoc.
  - unfold call_gemini_api. rewrite Hkey.
    apply retry_loop_no_code.
    rewrite attempts_app, Ha. exact H0.
Qed.

Lemma X6_error_without_code_witness :
  let w := demo_world (inr (demo_config "main")) demo_diff
             (fun _ => inl (APIError None)) in
  main w [] =
  (Ret tt, demo_trace
           ++ [EPrint MsgRequesting;
               EGenerate (model demo_info)
                 (review_prompt w demo_info (lit "+print(1)"));
               EPrint MsgReviewFailed])
  /\ attempts demo_trace = 0
  /\ sleeps demo_trace = []
  /\ mkdirs demo_trace = []
  /\ writes demo_trace = [].
Proof.
  intros w.
  apply (X6_error_without_code_stops w demo_info (lit "+print(1)") demo_trace
           (lit "secret") (demo_reaches_request _));
    reflexivity.
Defined.



(** The same exception raised by the request itself: one request. *)
Example request_exception_run :
  let w := demo_world (inr (demo_config "main")) demo_diff
             (fun _ => inl OSError) in
  main w [] =
  (Raise OSError,
   demo_trace
   ++ [EPrint MsgRequesting;
       EGenerate (model demo_info)
         (review_prompt w demo_info (lit "+print(1)"))]).
Proof. vm_compute. reflexivity. Qed.

(** ** Subprocesses *)

Lemma emits_weaken (P Q : event -> Prop) A (m : M A) :
  (forall e, P e -> Q e) -> emits P m -> emits Q m.
Proof.
  intros HPQ Hm tr r tr' H.
  destruct (Hm _ _ _ H) as (evs & -> & F).
  exists evs. split; [reflexivity|].
  eapply Forall_impl; eauto.
Qed.

Section MoreEmits.

Variable w : world.
Variable P : event -> Prop.

Lemma emits_run_cmd_when cmd cwd :
  P (ERun cmd cwd) -> emits P (run_cmd w cmd cwd).
Proof.
  intros HP tr r tr' H. unfold run_cmd in H.
  exists [ERun cmd cwd].
  destruct (subprocess_run w cmd cwd); injection H as <- <-;
    (split; [reflexivity | now constructor]).
Qed.

Lemma emits_mkdir p : P (EMkdir p) -> emits P (mkdir w p).
Proof.
  intros HP tr r tr' H. unfold mkdir in H.
  destruct (mkdir_error w p); injection H as <- <-.
  - exists []. now rewrite app_nil_r.
  - exists [EMkdir p]. split; [reflexivity | now constructor].
Qed.

Lemma emits_write_text p content :
  P (EWriteText p content) -> emits P (write_text w p content).
Proof.
  intros HP tr r tr' H. unfold write_text in H.
  destruct (write_error w p); injection H as <- <-.
  - exists []. now rewrite app_nil_r.
  - exists [EWriteText p content]. split; [reflexivity | now constructor].
Qed.

(** Loading the configuration can only print to the error stream. *)
Lemma emits_load_config_when config_path :
  (forall m, P (EPrintErr m)) -> emits P (load_config w config_path).
Proof.
  intros HP. unfold load_config.
  repeat first [ apply emits_json_load | apply emits_get | apply emits_getitem
               | apply emits_setitem | apply emits_str_join
               | apply emits_emit; apply HP | emits_step ].
Qed.

End MoreEmits.

Lemma emits_main_save w c d text : emits save_event (main_save w c d text).
Proof.
  unfold main_save.
  repeat first [ apply emits_mkdir; exact I | apply emits_write_text; exact I
               | emits_step ].
Qed.

(** The whole script starts no subprocess but git commands of the three
    forms. *)
Lemma emits_main w : emits main_event (main w).
Proof.
  unfold main, main_resolve, main_review, get_current_branch,
    get_latest_commit, get_diff.
  repeat first
    [ apply emits_load_config_when; intros ?; exact I
    | apply emits_get
    | apply emits_run_cmd_when; reflexivity
    | apply (emits_weaken request_event);
        [intros [] ?; simpl in *; tauto | apply emits_call_gemini_api]
    | apply (emits_weaken save_event);
        [intros [] ?; simpl in *; tauto | apply emits_main_save]
    | emits_step ].
Qed.

Lemma main_events_runs evs :
  Forall main_event evs ->
  Forall (fun cmd => git_command cmd = true) (runs evs).
Proof.
  induction 1 as [|e evs He _ IH]; simpl; [constructor|].
  destruct e; simpl; try exact IH. now constructor.
Qed.

(** X8.  Every subprocess a run starts is [git branch --contains],
    [git rev-parse <ref>] or [git diff --minimal <range>]: the script
    reads the repository and never runs anything else. *)
Theorem X8_only_three_git_commands
  (w : world) (tr : trace) (r : outcome unit) (tr' : trace) :
  main w tr = (r, tr') ->
  exists evs,
    tr' = tr ++ evs
    /\ Forall (fun cmd => git_command cmd = true) (runs evs).
Proof.
  intros H.
  destruct (emits_main w _ _ _ H) as (evs & -> & F).
  exists evs. split; [reflexivity|].
  now apply main_events_runs.
Qed.

Lemma X8_git_commands_witness :
  let w := demo_world (inr (demo_config "main")) demo_diff
             (failing_api 503 0 (lit "LGTM")) in
  exists evs,
    snd (main w []) = [] ++ evs
    /\ Forall (fun cmd => git_command cmd = true) (runs evs).
Proof.
  intros w.
  apply (X8_only_three_git_commands w [] (fst (main w []))).
  vm_compute. reflexivity.
Defined.

(** ** Failing git commands *)

Section GitChecked.

Variable w : world.

Lemma ok_runs_app evs1 evs2 :
  ok_runs w evs1 -> ok_runs w evs2 -> ok_runs w (evs1 ++ evs2).
Proof.
  intros H1 H2 cmd cwd Hin.
  apply in_app_or in Hin. destruct Hin; [now apply H1 | now apply H2].
Qed.

Lemma ok_runs_not_run evs : Forall not_run evs -> ok_runs w evs.
Proof.
  intros F cmd cwd Hin.
  rewrite Forall_forall in F. now elim (F _ Hin).
Qed.

Lemma git_checked_silent A (m : M A) : emits not_run m -> git_checked w m.
Proof.
  intros Hm tr r tr' H.
  destruct (Hm _ _ _ H) as (evs & -> & F).
  exists evs. split; [reflexivity|]. left. now apply ok_runs_not_run.
Qed.

Lemma git_checked_run_cmd cmd cwd : git_checked w (run_cmd w cmd cwd).
Proof.
  intros tr r tr' H. unfold run_cmd in H.
  exists [ERun cmd cwd].
  destruct (subprocess_run w cmd cwd) as [e|out] eqn:E;
    injection H as <- <-; (split; [reflexivity|]).
  - right. exists [], cmd, cwd, e. repeat split; try assumption.
    + intros ? ? [].
    + constructor.
  - left. intros cmd' cwd' [Heq|[]]. injection Heq as <- <-. eauto.
Qed.

Lemma git_checked_bind A B (m : M A) (k : A -> M B) :
  git_checked w m -> emits resolve_event m ->
  (forall a, git_checked w (k a)) ->
  git_checked w (bind m k).
Proof.
  intros Hm He Hk tr r tr' H. unfold bind in H.
  destruct (m tr) as [r1 tr1] eqn:E1.
  destruct (Hm _ _ _ E1) as (evs1 & -> & [Hok|Hfail]).
  - destruct (He _ _ _ E1) as (evs1' & Heq & F1).
    apply app_inv_head in Heq. subst evs1'.
    destruct r1 as [a|c|e|];
      try (injection H as <- <-; exists evs1; split; [reflexivity | now left]).
    destruct (Hk a _ _ _ H) as (evs2 & -> & [Hok2|Hfail2]).
    + exists (evs1 ++ evs2). split; [now rewrite <- ?app_assoc|].
      left. now apply ok_runs_app.
    + destruct Hfail2 as (evs0 & cmd & cwd & e & -> & Hok0 & F0 & Hrun & ->).
      exists (evs1 ++ evs0 ++ [ERun cmd cwd]).
      split; [now rewrite <- ?app_assoc|].
      right. exists (evs1 ++ evs0), cmd, cwd, e.
      split; [now rewrite <- ?app_assoc|].
      split; [now apply ok_runs_app|].
      split; [now apply Forall_app|]. now split.
  - destruct Hfail as (evs0 & cmd & cwd & e & -> & Hok0 & F0 & Hrun & ->).
    injection H as <- <-.
    exists (evs0 ++ [ERun cmd cwd]). split; [reflexivity|].
    right. exists evs0, cmd, cwd, e. now repeat split.
Qed.

(** What follows a git command when nothing that follows starts another
    subprocess. *)
Lemma git_checked_then_silent A B (m : M A) (k : A -> M B) :
  git_checked w m -> (forall a, emits not_run (k a)) ->
  git_checked w (bind m k).
Proof.
  intros Hm Hk tr r tr' H. unfold bind in H.
  destruct (m tr) as [r1 tr1] eqn:E1.
  destruct (Hm _ _ _ E1) as (evs1 & -> & [Hok|Hfail]).
  - destruct r1 as [a|c|e|];
      try (injection H as <- <-; exists evs1; split; [reflexivity | now left]).
    destruct (Hk a _ _ _ H) as (evs2 & -> & F2).
    exists (evs1 ++ evs2). split; [now rewrite <- ?app_assoc|].
    left. apply ok_runs_app; [assumption | now apply ok_runs_not_run].
  - destruct Hfail as (evs0 & cmd & cwd & e & -> & Hok0 & F0 & Hrun & ->).
    injection H as <- <-.
    exists (evs0 ++ [ERun cmd cwd]). split; [reflexivity|].
    right. exists evs0, cmd, cwd, e. now repeat split.
Qed.

(** Closes a goal [emits resolve_event m] for a part of the git stage. *)
Ltac resolve_emits :=
  repeat first [ apply emits_load_config | apply emits_get
               | apply emits_run_cmd | apply emits_get_latest_commit
               | emits_step ].

(** Closes a goal [emits not_run m] for a part that starts nothing. *)
Ltac silent_emits :=
  repeat first
    [ apply emits_load_config_when; intros ?; exact I
    | apply emits_get
    | apply (emits_weaken request_event);
        [intros [] ?; simpl in *; tauto | apply emits_call_gemini_api]
    | apply (emits_weaken save_event);
        [intros [] ?; simpl in *; tauto | apply emits_main_save]
    | emits_step ].

Lemma git_checked_get_latest_commit branch cwd :
  git_checked w (get_latest_commit w branch cwd).
Proof.
  unfold get_latest_commit.
  destruct branch;
    first [ apply git_checked_run_cmd
          | apply git_checked_silent; apply emits_raise ].
Qed.

Lemma git_checked_main_resolve : git_checked w (main_resolve w).
Proof.
  unfold main_resolve, get_current_branch.
  repeat first
    [ apply git_checked_run_cmd
    | apply git_checked_get_latest_commit
    | apply git_checked_bind; [| solve [resolve_emits] | intros ?]
    | match goal with
      | |- git_checked _ (match ?x with _ => _ end) => destruct x
      end
    | apply git_checked_silent; solve [silent_emits] ].
Qed.

Lemma git_checked_main : git_checked w (main w).
Proof.
  unfold main.
  apply git_checked_bind;
    [apply git_checked_main_resolve | apply emits_main_resolve | intros c].
  unfold main_review.
  destruct (PyStr.eqb (base_commit c) (head_commit c)).
  - apply git_checked_silent. silent_emits.
  - apply git_checked_then_silent; [apply git_checked_run_cmd|].
    intros d. silent_emits.
Qed.

End GitChecked.

(** X9.  When a git command that a run starts ends with a non-zero
    status, the run ends there with the exception of that command: the
    command is the last thing the run did, nothing before it failed, and
    no request, directory or file was made. *)
Theorem X9_failed_git_command_ends_the_run
  (w : world) (r : outcome unit) (tr : trace)
  (cmd : list str) (cwd : path) (e : exn) :
  main w [] = (r, tr) ->
  In (ERun cmd cwd) tr ->
  subprocess_run w cmd cwd = inl e ->
  r = Raise e
  /\ (exists tr0, tr = tr0 ++ [ERun cmd cwd] /\ ok_runs w tr0)
  /\ attempts tr = 0
  /\ mkdirs tr = []
  /\ writes tr = [].
Proof.
  intros H Hin Hfail.
  destruct (git_checked_main w _ _ _ H) as (evs & Heq & [Hok|Hbad]).
  { simpl in Heq. subst evs.
    destruct (Hok _ _ Hin) as [out Hout]. congruence. }
  destruct Hbad as (evs0 & cmd' & cwd' & e' & -> & Hok0 & F0 & Hrun & ->).
  simpl in Heq. subst tr.
  apply in_app_or in Hin. destruct Hin as [Hin|[Hin|[]]].
  { destruct (Hok0 _ _ Hin) as [out Hout]. congruence. }
  injection Hin as <- <-.
  assert (e' = e) by congruence. subst e'.
  destruct (resolve_events_quiet _ F0) as (Ha & _ & Hm & Hw).
  split; [reflexivity|]. split; [now exists evs0|].
  rewrite attempts_app, mkdirs_app, writes_app, Ha, Hm, Hw.
  repeat split.
Qed.

Lemma X9_failed_git_command_witness :
  let w := with_subprocess_run
             (demo_world (inr (demo_config "main")) demo_diff
                (failing_api 503 0 (lit "LGTM")))
             (fun cmd cwd =>
                match cmd with
                | [_; _; _; _] => inl CalledProcessError
                | _ => demo_git demo_diff cmd cwd
                end) in
  fst (main w []) = Raise CalledProcessError
  /\ (exists tr0,
         snd (main w []) =
         tr0 ++ [ERun [lit "git"; lit "diff"; lit "--minimal";
                       lit "1111111..2222222"] (Path (lit "."))]
         /\ ok_runs w tr0)
  /\ attempts (snd (main w [])) = 0
  /\ mkdirs (snd (main w [])) = []
  /\ writes (snd (main w [])) = [].
Proof.
  intros w.
  apply (X9_failed_git_command_ends_the_run w
           (fst (main w [])) (snd (main w []))).
  - vm_compute. reflexivity.
  - vm_compute. do 9 right. left. reflexivity.
  - reflexivity.
Defined.

(** ** More on the configuration *)

Lemma dict_get_set_other (d : list (str * json)) (key key' : str) (v : json) :
  key' <> key ->
  dict_get (dict_set d key v) key' = dict_get d key'.
Proof.
  intros Hne.
  induction d as [|[k v0] d IH]; simpl.
  - destruct (PyStrFacts.eqb_spec key key'); [congruence | reflexivity].
  - destruct (PyStrFacts.eqb_spec k key) as [->|Hk]; simpl.
    + destruct (PyStrFacts.eqb_spec key key'); [congruence | reflexivity].
    + destruct (PyStrFacts.eqb_spec k key'); [reflexivity | exact IH].
Qed.

Lemma all_str_none (items : list json) :
  (exists x, In x items /\ forall s, x <> JStr s) -> all_str items = None.
Proof.
  intros (x & Hin & Hx).
  induction items as [|y items IH]; [contradiction|].
  destruct Hin as [->|Hin].
  - destruct x; try reflexivity. now elim (Hx s).
  - simpl. rewrite (IH Hin). now destruct y.
Qed.

(** X10.  Loading the configuration changes nothing but the prompt: under
    every other key, the configuration that [load_config] returns holds
    what the file holds (and the default where the file has no such
    key). *)
Theorem X10_load_config_keeps_other_keys
  (w : world) (config_path : str) (tr : trace)
  (loaded config : json) (tr' : trace) (key : str) (default : json) :
  open_json w config_path = inr loaded ->
  load_config w config_path tr = (Ret config, tr') ->
  key <> lit "prompt" ->
  get config key default tr' = get loaded key default tr'.
Proof.
  intros Hopen Hl Hkey.
  unfold load_config, try_except, bind, json_load in Hl.
  rewrite Hopen in Hl.
  destruct loaded as [| | | | | |items]; try discriminate.
  simpl in Hl.
  destruct (dict_get items (lit "prompt")) as [[| | | | |l|]|];
    try (injection Hl as <- _; reflexivity).
  simpl in Hl. destruct (all_str l); [|discriminate].
  injection Hl as <- _.
  unfold get. now rewrite dict_get_set_other.
Qed.

Lemma X10_other_keys_witness :
  let w := demo_world (inr (demo_config "main")) demo_diff
             (failing_api 503 0 (lit "LGTM")) in
  get (JDict [ (lit "project_path", JStr (lit "."));
               (lit "base_branch", JStr (lit "main"));
               (lit "model", JStr (lit "gemini-2.0-flash"));
               (lit "prompt", JStr (lit "line1" ++ [nl] ++ lit "line2")) ])
      (lit "model") JNull []
  = get (demo_config "main") (lit "model") JNull [].
Proof.
  intros w.
  apply (X10_load_config_keeps_other_keys w (lit "review_config.json") []
           (demo_config "main")).
  - reflexivity.
  - reflexivity.
  - discriminate.
Defined.

(** X11.  A configuration file that holds valid JSON of the wrong shape is
    not handled either: when the document is not an object, [config.get]
    raises [AttributeError], and when the prompt is a list with an item
    that is not a string, the join raises [TypeError].  In both cases
    [load_config] ends with the exception and prints nothing. *)
Theorem X11_wrong_shape_is_not_handled
  (w : world) (config_path : str) (tr : trace) :
  (forall loaded,
      open_json w config_path = inr loaded ->
      (forall items, loaded <> JDict items) ->
      load_config w config_path tr = (Raise AttributeError, tr))
  /\ (forall items l x,
         open_json w config_path = inr (JDict items) ->
         dict_get items (lit "prompt") = Some (JList l) ->
         In x l -> (forall s, x <> JStr s) ->
         load_config w config_path tr = (Raise TypeError, tr)).
Proof.
  split.
  - intros loaded Hopen Hshape.
    unfold load_config, try_except, bind, json_load. rewrite Hopen.
    destruct loaded; try reflexivity. now elim (Hshape items).
  - intros items l x Hopen Hp Hin Hx.
    unfold load_config, try_except, bind, json_load. rewrite Hopen.
    simpl. rewrite Hp. simpl.
    rewrite (all_str_none l); [reflexivity|]. now exists x.
Qed.

Lemma X11_wrong_shape_witness :
  load_config
    (demo_world (inr (JList [JStr (lit "prompt")])) demo_diff
       (failing_api 503 0 (lit "LGTM")))
    (lit "review_config.json") []
  = (Raise AttributeError, []).
Proof.
  apply (proj1 (X11_wrong_shape_is_not_handled
                  (demo_world (inr (JList [JStr (lit "prompt")])) demo_diff
                     (failing_api 503 0 (lit "LGTM")))
                  (lit "review_config.json") [])
               (JList [JStr (lit "prompt")])).
  - reflexivity.
  - discriminate.
Defined.

(** ** The requests of a run *)

Section Requests.

Variable w : world.

Lemma emits_retry_loop_of fuel model prompt :
  forall i, emits (request_of model prompt) (retry_loop w fuel model prompt i).
Proof.
  induction fuel as [|f IH]; intros i; simpl.
  - intros tr r tr' H. injection H as <- <-.
    exists []. now rewrite app_nil_r.
  - repeat first [ apply IH | emits_step ].
    intros tr r tr' H. unfold try_call_gemini_api in H.
    assert (Hsent : exists evs,
               tr ++ [EGenerate model prompt] = tr ++ evs
               /\ Forall (request_of model prompt) evs)
      by (eexists; split; [reflexivity | repeat constructor]).
    assert (Hnot : exists evs,
               tr = tr ++ evs /\ Forall (request_of model prompt) evs)
      by (exists []; split; [now rewrite app_nil_r | constructor]).
    destruct (generate_content w (attempts tr)) as [e|text];
      [|injection H as <- <-; exact Hsent].
    destruct e; try destruct (request_sent w (attempts tr));
      injection H as <- <-; assumption.
Qed.

Lemma emits_call_gemini_api_of model prompt :
  emits (request_of model prompt) (call_gemini_api w model prompt).
Proof.
  unfold call_gemini_api.
  repeat first [ apply emits_retry_loop_of | emits_step ].
Qed.

(** A run either ends before the request, having only printed and run
    git, or gets to the request and ends as the requester lets it. *)
Lemma main_cases r tr :
  main w [] = (r, tr) ->
  Forall resolve_event tr
  \/ exists c d tr2 r3 tr3,
       reaches_request w c d tr2
       /\ call_gemini_api w (model c) (review_prompt w c d)
            (tr2 ++ [EPrint MsgRequesting]) = (r3, tr3)
       /\ (r, tr) = match r3 with
                    | Ret (Some text) => main_save w c d text tr3
                    | Ret None => (Ret tt, tr3 ++ [EPrint MsgReviewFailed])
                    | Exit code => (Exit code, tr3)
                    | Raise e => (Raise e, tr3)
                    | OutOfFuel => (OutOfFuel, tr3)
                    end.
Proof.
  intros H. pose proof H as Hmain. revert H.
  unfold main, bind at 1.
  destruct (main_resolve w []) as [r1 tr1] eqn:Hr.
  destruct (emits_main_resolve w _ _ _ Hr) as (evs1 & Heq1 & F1).
  simpl in Heq1. subst evs1.
  destruct r1 as [c| | |]; try (intros H; injection H as <- <-; now left).
  unfold main_review.
  destruct (PyStrFacts.eqb_spec (base_commit c) (head_commit c)) as [E|Hne].
  { intros H; injection H as <- <-. left.
    apply Forall_app. split; [assumption | repeat constructor]. }
  unfold bind at 1.
  destruct (get_diff w (base_commit c) (head_commit c) (project_dir c) tr1)
    as [r2 tr2] eqn:Hd.
  destruct (emits_get_diff w _ _ _ _ _ _ Hd) as (evs2 & -> & F2).
  assert (F12 : Forall resolve_event (tr1 ++ evs2))
    by (apply Forall_app; now split).
  destruct r2 as [d| | |]; try (intros H; injection H as <- <-; now left).
  destruct (PyStr.strip d) as [|ch rest] eqn:Es; cbn [negb PyStr.truthy].
  { intros H; injection H as <- <-. left.
    apply Forall_app. split; [assumption | repeat constructor]. }
  intros _. right.
  assert (Hreach : reaches_request w c d (tr1 ++ evs2)).
  { exists tr1. repeat split; try assumption. rewrite Es. discriminate. }
  destruct (call_gemini_api w (model c) (review_prompt w c d)
              ((tr1 ++ evs2) ++ [EPrint MsgRequesting])) as [r3 tr3] eqn:Hc.
  exists c, d, (tr1 ++ evs2), r3, tr3.
  split; [exact Hreach|]. split; [exact Hc|].
  rewrite <- Hmain. apply (main_after_request w c d _ _ _ Hreach Hc).
Qed.

(** Every request of a run is the one of line 139. *)
Lemma main_requests r tr m p :
  main w [] = (r, tr) ->
  In (EGenerate m p) tr ->
  exists c d tr2,
    reaches_request w c d tr2 /\ m = model c /\ p = review_prompt w c d.
Proof.
  intros H Hin.
  destruct (main_cases _ _ H)
    as [F|(c & d & tr2 & r3 & tr3 & Hreach & Hc & Heq)].
  { rewrite Forall_forall in F. now elim (F _ Hin). }
  exists c, d, tr2. split; [exact Hreach|].
  destruct Hreach as (tr1 & Hr & _ & Hd & _).
  destruct (emits_main_resolve w _ _ _ Hr) as (evs1 & Heq1 & F1).
  destruct (emits_get_diff w _ _ _ _ _ _ Hd) as (evs2 & Heq2 & F2).
  destruct (emits_call_gemini_api_of _ _ _ _ _ Hc) as (evs3 & Heq3 & F3).
  assert (Hin3 : In (EGenerate m p) tr3 ->
                 m = model c /\ p = review_prompt w c d).
  { rewrite Heq3, Heq2, Heq1. simpl. intros Hin3.
    repeat (apply in_app_or in Hin3; destruct Hin3 as [Hin3|Hin3]).
    - rewrite Forall_forall in F1. now elim (F1 _ Hin3).
    - rewrite Forall_forall in F2. now elim (F2 _ Hin3).
    - destruct Hin3 as [Hin3|[]]. discriminate.
    - rewrite Forall_forall in F3. exact (F3 _ Hin3). }
  destruct r3 as [[text|]|code|e|].
  - symmetry in Heq.
    destruct (emits_main_save w c d text _ _ _ Heq) as (evs4 & -> & F4).
    apply in_app_or in Hin. destruct Hin as [Hin|Hin]; [now apply Hin3|].
    rewrite Forall_forall in F4. now elim (F4 _ Hin).
  - injection Heq as _ ->.
    apply in_app_or in Hin. destruct Hin as [Hin|[Hin|[]]];
      [now apply Hin3 | discriminate].
  - injection Heq as _ ->. now apply Hin3.
  - injection Heq as _ ->. now apply Hin3.
  - injection Heq as _ ->. now apply Hin3.
Qed.

Lemma reaches_request_unique c d tr2 c' d' tr2' :
  reaches_request w c d tr2 -> reaches_request w c' d' tr2' ->
  c = c' /\ d = d'.
Proof.
  intros (tr1 & Hr & _ & Hd & _) (tr1' & Hr' & _ & Hd' & _).
  rewrite Hr in Hr'. injection Hr' as <- <-.
  rewrite Hd in Hd'. now injection Hd' as <- _.
Qed.

End Requests.

(** X12.  Every request a run makes carries the model of the
    configuration and the same text: the prompt, a newline, and the diff
    between two runs of three backquotes.  A retry sends again exactly
    what the first request sent. *)
Theorem X12_every_request_is_the_same
  (w : world) (r : outcome unit) (tr : trace) :
  main w [] = (r, tr) ->
  (forall m p,
      In (EGenerate m p) tr ->
      exists c d tr2,
        reaches_request w c d tr2
        /\ m = model c
        /\ p = py_str w (prompt c) ++ [nl] ++ lit "```" ++ d ++ lit "```")
  /\ (forall m p m' p',
         In (EGenerate m p) tr -> In (EGenerate m' p') tr ->
         m = m' /\ p = p').
Proof.
  intros H. split.
  - intros m p Hin. exact (main_requests w _ _ _ _ H Hin).
  - intros m p m' p' Hin Hin'.
    destruct (main_requests w _ _ _ _ H Hin) as (c & d & tr2 & Hreach & -> & ->).
    destruct (main_requests w _ _ _ _ H Hin')
      as (c' & d' & tr2' & Hreach' & -> & ->).
    destruct (reaches_request_unique w _ _ _ _ _ _ Hreach Hreach') as [<- <-].
    now split.
Qed.

Lemma X12_every_request_witness :
  let w := demo_world (inr (demo_config "main")) demo_diff
             (failing_api 503 2 (lit "LGTM")) in
  (forall m p,
      In (EGenerate m p) (snd (main w [])) ->
      exists c d tr2,
        reaches_request w c d tr2
        /\ m = model c
        /\ p = py_str w (prompt c) ++ [nl] ++ lit "```" ++ d ++ lit "```")
  /\ (forall m p m' p',
         In (EGenerate m p) (snd (main w [])) ->
         In (EGenerate m' p') (snd (main w [])) ->
         m = m' /\ p = p').
Proof.
  intros w.
  apply (X12_every_request_is_the_same w (fst (main w [])) (snd (main w []))).
  vm_compute. reflexivity.
Defined.

(** ** Fatal exits *)

Section ExitsLoudly.

Lemma exits_loudly_ret A (a : A) : exits_loudly (ret a).
Proof. intros tr code tr' H. discriminate. Qed.

Lemma exits_loudly_raise A (e : exn) : exits_loudly (@raise A e).
Proof. intros tr code tr' H. discriminate. Qed.

Lemma exits_loudly_emit (e : event) : exits_loudly (emit e).
Proof. intros tr code tr' H. discriminate. Qed.

Lemma exits_loudly_diagnostic A (msg : message) :
  fatal_message msg ->
  exits_loudly (print_err msg ;; @sys_exit A 1).
Proof.
  intros Hmsg tr code tr' H. injection H as <- <-.
  split; [reflexivity|]. now exists tr, msg.
Qed.

Lemma exits_loudly_bind A B (m : M A) (k : A -> M B) :
  exits_loudly m -> (forall a, exits_loudly (k a)) -> exits_loudly (bind m k).
Proof.
  intros Hm Hk tr code tr' H. unfold bind in H.
  destruct (m tr) as [[a|c|e|] tr1] eqn:E1; try discriminate.
  - exact (Hk a _ _ _ H).
  - injection H as <- <-. exact (Hm _ _ _ E1).
Qed.

Lemma exits_loudly_try_except A (m : M A) (h : exn -> M A) :
  exits_loudly m -> (forall e, exits_loudly (h e)) ->
  exits_loudly (try_except m h).
Proof.
  intros Hm Hh tr code tr' H. unfold try_except in H.
  destruct (m tr) as [[a|c|e|] tr1] eqn:E1; try discriminate.
  - injection H as <- <-. exact (Hm _ _ _ E1).
  - exact (Hh e _ _ _ H).
Qed.

End ExitsLoudly.

(** Breaks a goal about fatal exits into its parts. *)
Ltac loud_step :=
  lazymatch goal with
  | |- exits_loudly (ret _) => apply exits_loudly_ret
  | |- exits_loudly (raise _) => apply exits_loudly_raise
  | |- exits_loudly (emit _) => apply exits_loudly_emit
  | |- exits_loudly (print _) => apply exits_loudly_emit
  | |- exits_loudly (bind (print_err _) (fun _ => sys_exit _)) =>
      apply exits_loudly_diagnostic; exact I
  | |- exits_loudly (bind _ _) => apply exits_loudly_bind; [|intros ?]
  | |- exits_loudly (try_except _ _) =>
      apply exits_loudly_try_except; [|intros ?]
  | |- exits_loudly (match ?x with _ => _ end) => destruct x
  end.

Section ScriptExits.

Variable w : world.

Lemma exits_loudly_get config key default :
  exits_loudly (get config key default).
Proof. unfold get. repeat loud_step. Qed.

Lemma exits_loudly_run_cmd cmd cwd : exits_loudly (run_cmd w cmd cwd).
Proof.
  intros tr code tr' H. unfold run_cmd in H.
  destruct (subprocess_run w cmd cwd); discriminate.
Qed.

Lemma exits_loudly_load_config config_path :
  exits_loudly (load_config w config_path).
Proof.
  unfold load_config, getitem, setitem, str_join.
  repeat first [ apply exits_loudly_get | loud_step ].
  intros tr code tr' H. unfold json_load in H.
  destruct (open_json w config_path); discriminate.
Qed.

Lemma exits_loudly_retry_loop fuel model prompt :
  forall i, exits_loudly (retry_loop w fuel model prompt i).
Proof.
  induction fuel as [|f IH]; intros i; simpl.
  - intros tr code tr' H. discriminate.
  - repeat first [ apply IH | loud_step ].
    intros tr code tr' H. unfold try_call_gemini_api in H.
    destruct (generate_content w (attempts tr)) as [e|text]; [|discriminate].
    destruct e; try destruct (request_sent w (attempts tr)); discriminate.
Qed.

(** The loop itself has no [sys.exit]. *)
Lemma exits_loudly_retry_loop_never fuel model prompt :
  forall i tr code tr',
    retry_loop w fuel model prompt i tr <> (Exit code, tr').
Proof.
  induction fuel as [|f IH]; intros i tr code tr'; simpl; [discriminate|].
  unfold try_except, bind, try_call_gemini_api.
  destruct (generate_content w (attempts tr)) as [e|text]; [|discriminate].
  destruct e as [| | | | | | | |[c|]|];
    try (destruct (request_sent w (attempts tr)); discriminate);
    try discriminate.
  simpl. unfold ret, raise.
  destruct (4 <? i + 1); [discriminate|].
  destruct (c =? 429)%Z; [discriminate|].
  destruct (c =? 503)%Z; [|apply IH].
  destruct (nth_error retry_time (i + 1)); [apply IH | discriminate].
Qed.

Lemma exits_loudly_main_save c d text : exits_loudly (main_save w c d text).
Proof.
  unfold main_save.
  repeat first [ loud_step
               | intros tr code tr' H; unfold mkdir in H;
                 destruct (mkdir_error w _); discriminate
               | intros tr code tr' H; unfold write_text in H;
                 destruct (write_error w _); discriminate ].
Qed.

Lemma exits_loudly_main : exits_loudly (main w).
Proof.
  unfold main, main_resolve, main_review, call_gemini_api,
    get_current_branch, get_latest_commit, get_diff.
  repeat first [ apply exits_loudly_load_config | apply exits_loudly_get
               | apply exits_loudly_run_cmd | apply exits_loudly_retry_loop
               | apply exits_loudly_main_save | loud_step ].
Qed.

End ScriptExits.

(** X13.  Whenever a run ends in [sys.exit], the status is 1 and the last
    thing the run did was to print one of its three diagnostics (no
    configuration file, no [.git] directory, no API key) on the error
    stream; by then it has made no request and created no directory or
    file. *)
Theorem X13_every_exit_has_a_diagnostic
  (w : world) (code : Z) (tr : trace) :
  main w [] = (Exit code, tr) ->
  code = 1%Z
  /\ (exists tr0 msg, tr = tr0 ++ [EPrintErr msg] /\ fatal_message msg)
  /\ attempts tr = 0
  /\ mkdirs tr = []
  /\ writes tr = [].
Proof.
  intros H.
  destruct (exits_loudly_main w _ _ _ H) as (Hcode & Hlast).
  split; [exact Hcode|]. split; [exact Hlast|].
  destruct (main_cases w _ _ H)
    as [F|(c & d & tr2 & r3 & tr3 & Hreach & Hc & Heq)].
  { destruct (resolve_events_quiet _ F) as (Ha & _ & Hm & Hw). now repeat split. }
  destruct (reaches_request_quiet w c d tr2 Hreach) as (Ha & _ & Hm & Hw).
  destruct r3 as [[text|]|code3|e|]; try discriminate.
  - symmetry in Heq. unfold main_save, bind, mkdir, write_text, print, emit in Heq.
    destruct (mkdir_error w (output_dir w)); [discriminate|].
    destruct (write_error w (output_dir w // "diff.txt")); [discriminate|].
    destruct (write_error w (output_dir w // "meta.txt")); [discriminate|].
    destruct (write_error w (output_dir w // "review.md")); discriminate.
  - injection Heq as _ ->.
    unfold call_gemini_api in Hc.
    destruct (getenv w (lit "GEMINI_API_KEY")).
    + now elim (exits_loudly_retry_loop_never w _ _ _ _ _ _ _ Hc).
    + injection Hc as _ <-.
      rewrite !attempts_app, !mkdirs_app, !writes_app, Ha, Hm, Hw.
      now repeat split.
Qed.

Lemma X13_every_exit_witness :
  let w := with_path_exists
             (demo_world (inr (demo_config "main")) demo_diff
                (failing_api 503 0 (lit "LGTM")))
             (fun _ => false) in
  1%Z = 1%Z
  /\ (exists tr0 msg,
         [EPrintErr (MsgGitDirNotFound (Path (lit ".")))]
         = tr0 ++ [EPrintErr msg] /\ fatal_message msg)
  /\ attempts [EPrintErr (MsgGitDirNotFound (Path (lit ".")))] = 0
  /\ mkdirs [EPrintErr (MsgGitDirNotFound (Path (lit ".")))] = []
  /\ writes [EPrintErr (MsgGitDirNotFound (Path (lit ".")))] = [].
Proof.
  intros w.
  apply (X13_every_exit_has_a_diagnostic w).
  vm_compute. reflexivity.
Defined.

(** ** Missing pieces of the configuration *)

(** X14.  When the project directory (the [project_path] of the
    configuration, or [.] when it has none) holds no [.git], the run
    prints a diagnostic on the error stream and exits with status 1
    before it starts any subprocess. *)
Theorem X14_missing_git_dir_is_fatal
  (w : world) (tr : trace) (items : list (str * json)) (dir : str) :
  load_config w (lit "review_config.json") tr = (Ret (JDict items), tr) ->
  match dict_get items (lit "project_path") with
  | Some v => v
  | None => JStr (lit ".")
  end = JStr dir ->
  path_exists w (Path dir // ".git") = false ->
  main w tr = (Exit 1, tr ++ [EPrintErr (MsgGitDirNotFound (Path dir))]).
Proof.
  intros Hl Hdir Hgit.
  unfold main, main_resolve, bind. rewrite Hl. simpl.
  rewrite Hdir. simpl. rewrite Hgit. reflexivity.
Qed.

Lemma X14_missing_git_dir_witness :
  let w := with_path_exists
             (demo_world
                (inr (JDict [(lit "base_branch", JStr (lit "main"))]))
                demo_diff (failing_api 503 0 (lit "LGTM")))
             (fun _ => false) in
  main w [] = (Exit 1, [] ++ [EPrintErr (MsgGitDirNotFound (Path (lit ".")))]).
Proof.
  intros w.
  apply (X14_missing_git_dir_is_fatal w []
           [(lit "base_branch", JStr (lit "main"))] (lit "."));
    reflexivity.
Defined.







(** ** Files *)

(** X17.  The files of a run are written in a fixed order into the one
    directory it created, and a failed write ends the run: whatever
    happens, the texts written are none, or [diff.txt] alone, or
    [diff.txt] and [meta.txt], or all three, and a run that wrote one or
    two of them ended with an exception.  (A run that wrote all three
    returns or ends with an exception; in this model, where a line
    printed on the console cannot fail, it returns.) *)
Theorem X17_files_are_written_in_order
  (w : world) (r : outcome unit) (tr : trace) :
  main w [] = (r, tr) ->
  writes tr = []
  \/ exists c d tr2 text,
       reaches_request w c d tr2
       /\ mkdirs tr = [output_dir w]
       /\ ((writes tr = [(output_dir w // "diff.txt", d)]
            /\ exists e, r = Raise e)
           \/ (writes tr = [ (output_dir w // "diff.txt", d);
                             (output_dir w // "meta.txt", meta_info w c) ]
               /\ exists e, r = Raise e)
           \/ (writes tr = [ (output_dir w // "diff.txt", d);
                             (output_dir w // "meta.txt", meta_info w c);
                             (output_dir w // "review.md", text) ]
               /\ (r = Ret tt \/ exists e, r = Raise e))).
Proof.
  intros H.
  destruct (main_cases w _ _ H)
    as [F|(c & d & tr2 & r3 & tr3 & Hreach & Hc & Heq)].
  { left. now destruct (resolve_events_quiet _ F) as (_ & _ & _ & Hw). }
  destruct (reaches_request_quiet w c d tr2 Hreach) as (_ & _ & Hm & Hw).
  destruct (emits_call_gemini_api w _ _ _ _ _ Hc) as (evs & Htr3 & F).
  destruct (request_events_quiet _ F) as (_ & Hm3 & Hw3).
  assert (Hm3' : mkdirs tr3 = [])
    by (rewrite Htr3, !mkdirs_app, Hm, Hm3; reflexivity).
  assert (Hw3' : writes tr3 = [])
    by (rewrite Htr3, !writes_app, Hw, Hw3; reflexivity).
  destruct r3 as [[text|]|code|e|];
    try (injection Heq as _ ->; left; rewrite ?writes_app, Hw3'; reflexivity).
  symmetry in Heq. revert Heq.
  unfold main_save, bind, mkdir, write_text, print, emit.
  destruct (mkdir_error w (output_dir w)).
  { intros Hs; injection Hs as _ <-. now left. }
  destruct (write_error w (output_dir w // "diff.txt")).
  { intros Hs; injection Hs as _ <-. left.
    rewrite writes_app, Hw3'. reflexivity. }
  destruct (write_error w (output_dir w // "meta.txt"));
    [intros Hs; injection Hs as <- <-; right; exists c, d, tr2, text;
     split; [exact Hreach|];
     rewrite ?mkdirs_app, ?writes_app, Hm3', Hw3'; simpl;
     split; [reflexivity|]; left; split; [reflexivity | eauto] |].
  destruct (write_error w (output_dir w // "review.md"));
    [intros Hs; injection Hs as <- <-; right; exists c, d, tr2, text;
     split; [exact Hreach|];
     rewrite ?mkdirs_app, ?writes_app, Hm3', Hw3'; simpl;
     split; [reflexivity|]; right; left; split; [reflexivity | eauto] |].
  intros Hs; injection Hs as <- <-. right. exists c, d, tr2, text.
  split; [exact Hreach|].
  rewrite ?mkdirs_app, ?writes_app, Hm3', Hw3'; simpl.
  split; [reflexivity|]. right; right. split; [reflexivity | now left].
Qed.

Lemma X17_files_in_order_witness :
  let w := with_write_error
             (demo_world (inr (demo_config "main")) demo_diff
                (failing_api 503 0 (lit "LGTM")))
             (fun p => match p with
                       | PathJoin _ name =>
                           if PyStr.eqb name (lit "meta.txt")
                           then Some OSError else None
                       | _ => None
                       end) in
  writes (snd (main w [])) = []
  \/ exists c d tr2 text,
       reaches_request w c d tr2
       /\ mkdirs (snd (main w [])) = [output_dir w]
       /\ ((writes (snd (main w [])) = [(output_dir w // "diff.txt", d)]
            /\ exists e, fst (main w []) = Raise e)
           \/ (writes (snd (main w [])) =
               [ (output_dir w // "diff.txt", d);
                 (output_dir w // "meta.txt", meta_info w c) ]
               /\ exists e, fst (main w []) = Raise e)
           \/ (writes (snd (main w [])) =
               [ (output_dir w // "diff.txt", d);
                 (output_dir w // "meta.txt", meta_info w c);
                 (output_dir w // "review.md", text) ]
               /\ (fst (main w []) = Ret tt
                   \/ exists e, fst (main w []) = Raise e))).
Proof.
  intros w.
  apply (X17_files_are_written_in_order w (fst (main w [])) (snd (main w []))).
  vm_compute. reflexivity.
Defined.

(** In that world the run leaves [diff.txt] alone in its directory. *)
Example partial_directory :
  let w := with_write_error
             (demo_world (inr (demo_config "main")) demo_diff
                (failing_api 503 0 (lit "LGTM")))
             (fun p => match p with
                       | PathJoin _ name =>
                           if PyStr.eqb name (lit "meta.txt")
                           then Some OSError else None
                       | _ => None
                       end) in
  fst (main w []) = Raise OSError
  /\ mkdirs (snd (main w [])) = [output_dir w]
  /\ writes (snd (main w [])) = [(output_dir w // "diff.txt", lit "+print(1)")].
Proof. vm_compute. repeat split. Qed.
